(** * Guardfin: the client-side envelope, the sync engine and the server store

    A shallow embedding of [client/app.js] (classes [SecureCrypto] and
    [Database], [TransactionParser.categorize], [App.getPasswordStrength])
    and of the data routes of [server/server.js] ([validateSyncData] and the
    handlers of [POST /api/sync], [GET] and [DELETE /api/data/:accountId]),
    followed by the properties of the specification that were checked
    against it and by further properties of the code.

    Conventions of the embedding:
    - a JavaScript array of numbers is a [list Z]; a [Uint8Array] is a
      [list byte], so that the range 0..255 is carried by the type;
    - JSON data is the inductive type [json]; numbers are integer valued
      (the only number the properties look at is the sync counter);
    - the platform interfaces the code calls (WebCrypto, [JSON],
      [TextEncoder], Node's [path]) are type classes; the code is embedded
      over any implementation of them;
    - [throw] is the right injection of a sum, [await] is sequencing in
      that sum;
    - the mutable fields of the [Database] object are a record that every
      operation takes and returns; [setTimeout] callbacks and the running
      [async] bodies are explicit queues next to that record. *)

From Stdlib Require Import ZArith Lia.
From Stdlib Require Import Strings.Byte Strings.Ascii.
From stdpp Require Import base option list sorting gmap strings pretty.

Set Warnings "-register-all".

Local Open Scope Z_scope.
Local Open Scope string_scope.
Local Open Scope list_scope.

(** ** JavaScript data *)

(** Values that [JSON.parse] produces. An absent property ([undefined]) is
    the [None] of a lookup. *)
Inductive json : Type :=
  | JNull
  | JBool (b : bool)
  | JNum (z : Z)
  | JStr (s : string)
  | JArr (l : list json)
  | JObj (fields : list (string * json)).

(** Errors that the embedded code throws or lets through. *)
Inductive exn : Type :=
  | Error (message : string)          (* [new Error(message)] *)
  | PouchError (status : Z) (name : string)   (* rejection of a PouchDB call *)
  | OperationError                    (* WebCrypto: authentication failed *)
  | SyntaxError                       (* [JSON.parse] *)
  | TypeError.                        (* property access on null/undefined *)

Definition result (A : Type) : Type := A + exn.

Definition bind {A B : Type} (r : result A) (k : A -> result B) : result B :=
  match r with
  | inl a => k a
  | inr e => inr e
  end.

Notation "'await' x := r 'in' k" := (bind r (fun x => k))
  (at level 10, x name, r at level 100, k at level 200,
   format "'[v' 'await'  x  :=  r  'in' '/' k ']'").

(** Property lookup in an object: the first binding of the key.  Objects
    built by [obj_set] never hold a key twice. *)
Fixpoint assoc (k : string) (fields : list (string * json)) : option json :=
  match fields with
  | [] => None
  | (k', v) :: rest => if String.eqb k k' then Some v else assoc k rest
  end.

(** [o[k] = v] on the property list: overwrite in place, else append.  The
    list keeps insertion order; the rule that puts integer keys first when
    an object is enumerated is left out, no lookup depends on it. *)
Fixpoint obj_set (k : string) (v : json) (fields : list (string * json))
  : list (string * json) :=
  match fields with
  | [] => [(k, v)]
  | (k', v') :: rest =>
      if String.eqb k k' then (k', v) :: rest else (k', v') :: obj_set k v rest
  end.

(** [v.k] for a non-null [v]: only objects carry the properties of interest
    (primitives and arrays answer [undefined] for them). *)
Definition get_field (k : string) (v : json) : option json :=
  match v with
  | JObj fields => assoc k fields
  | _ => None
  end.

(** ToBoolean. *)
Definition truthy (v : option json) : bool :=
  match v with
  | None => false
  | Some JNull => false
  | Some (JBool b) => b
  | Some (JNum z) => negb (Z.eqb z 0)
  | Some (JStr s) => negb (String.eqb s EmptyString)
  | Some (JArr _) => true
  | Some (JObj _) => true
  end.

(** [a || d]. *)
Definition or_default (a : option json) (d : json) : json :=
  match a with
  | Some v => if truthy a then v else d
  | None => d
  end.

(** [typeof v === 'string'] and [Array.isArray(v)]. *)
Definition is_string (v : option json) : bool :=
  match v with Some (JStr _) => true | _ => false end.

Definition isArray (v : option json) : bool :=
  match v with Some (JArr _) => true | _ => false end.

(** The own enumerable properties copied by an object spread [{...v}]. *)
Definition indexed (l : list json) : list (string * json) :=
  imap (fun i x => (pretty i, x)) l.

Definition chars (s : string) : list json :=
  map (fun c => JStr (String c EmptyString)) (String.list_ascii_of_string s).

Definition spread_props (v : json) : list (string * json) :=
  match v with
  | JObj fields => fields
  | JArr l => indexed l
  | JStr s => indexed (chars s)
  | JNull | JBool _ | JNum _ => []
  end.

Definition spread_into (base : list (string * json)) (v : json)
  : list (string * json) :=
  foldl (fun o kv => obj_set kv.1 kv.2 o) base (spread_props v).

(** ** Typed arrays and 32-bit operators *)

Definition byte_to_Z (b : byte) : Z := Z.of_N (Byte.to_N b).

(** ToUint8 of an integer. *)
Definition Z_to_byte (z : Z) : byte :=
  default x00 (Byte.of_N (Z.to_N (z mod 256))).

(** [Array.from(u8)] and [new Uint8Array(arr)]. *)
Definition Array_from (u8 : list byte) : list Z := map byte_to_Z u8.
Definition Uint8Array (arr : list Z) : list byte := map Z_to_byte arr.

(** ToInt32, and the operators [^] and [|] which apply it to both sides. *)
Definition toInt32 (z : Z) : Z := (z + 2 ^ 31) mod 2 ^ 32 - 2 ^ 31.

Definition js_xor (a b : Z) : Z := Z.lxor (toInt32 a) (toInt32 b).
Definition js_or (a b : Z) : Z := Z.lor (toInt32 a) (toInt32 b).

(** ** Platform interfaces *)

(** [crypto.subtle] as the client uses it: PBKDF2 (SHA-256, the iteration
    count is an argument) to bits or to an AES-GCM key, and AES-GCM itself.
    Decryption answers [None] when authentication fails. *)
Class SubtleCrypto : Type := {
  CryptoKey : Type;
  pbkdf2_deriveBits : string -> list byte -> Z -> Z -> list byte;
  pbkdf2_deriveKey : string -> list byte -> Z -> CryptoKey;
  aes_gcm_encrypt : CryptoKey -> list byte -> list byte -> list byte;
  aes_gcm_decrypt : CryptoKey -> list byte -> list byte -> option (list byte)
}.

(** [JSON.stringify] / [JSON.parse] and [TextEncoder] / [TextDecoder]. *)
Class JSONCodec : Type := {
  JSON_stringify : json -> string;
  JSON_parse : string -> option json;
  TextEncoder_encode : string -> list byte;
  TextDecoder_decode : list byte -> string
}.

(** What the platform documents about those interfaces. *)
Class SubtleCryptoLaws `{SubtleCrypto} : Prop := {
  aes_gcm_decrypt_encrypt : forall k iv pt,
    aes_gcm_decrypt k iv (aes_gcm_encrypt k iv pt) = Some pt
}.

Class JSONCodecLaws `{JSONCodec} : Prop := {
  TextDecoder_decode_encode : forall s,
    TextDecoder_decode (TextEncoder_encode s) = s
}.

(** A value is JSON-serializable when [JSON.parse] gives it back from its
    [JSON.stringify]. *)
Definition serializable `{JSONCodec} (v : json) : Prop :=
  JSON_parse (JSON_stringify v) = Some v.

(** ** SecureCrypto (client/app.js) *)

(** The encrypted record as it is stored and sent. *)
Record envelope : Type := {
  version : string;
  algorithm : string;
  iv : list Z;
  data : list Z;
  timestamp : Z
}.

(** The fields of a [SecureCrypto] object. *)
Record crypto_state `{SubtleCrypto} : Type := {
  key : option CryptoKey;
  accountId : option string;
  salt : option (list byte)
}.

Section SecureCrypto.
Context `{SubtleCrypto} `{JSONCodec}.

Definition crypto_new : crypto_state :=
  {| key := None; accountId := None; salt := None |}.

Definition deriveKey (passphrase : string) (salt : list byte) : CryptoKey :=
  pbkdf2_deriveKey passphrase salt 250000.

Definition createVerifier (passphrase : string) (salt : list byte) : list Z :=
  let bits := pbkdf2_deriveBits passphrase salt 250000 256 in
  Array_from bits.

(** The comparison loop of [verifyPassword]: [i] runs over every index of
    [computed]; an index outside [storedVerifier] reads [undefined], which
    the operator [^] takes for 0.  Next to the accumulated [result] the
    loop returns the number of times its body ran. *)
Fixpoint verify_loop (computed storedVerifier : list Z) (result : Z)
    (iterations : nat) : Z * nat :=
  match computed with
  | [] => (result, iterations)
  | c :: computed' =>
      verify_loop computed' (tail storedVerifier)
        (js_or result (js_xor c (default 0 (head storedVerifier))))
        (S iterations)
  end.

(** [verifyPassword] with the iteration count of its loop. *)
Definition verifyPassword_run (passphrase : string) (salt : list byte)
    (storedVerifier : list Z) : bool * nat :=
  let computed := createVerifier passphrase salt in
  if negb (length computed =? length storedVerifier)%nat then (false, 0%nat)
  else
    let '(result, iterations) := verify_loop computed storedVerifier 0 0 in
    (Z.eqb result 0, iterations).

Definition verifyPassword (passphrase : string) (salt : list byte)
    (storedVerifier : list Z) : bool :=
  (verifyPassword_run passphrase salt storedVerifier).1.

(** [encrypt]: [fresh_iv] is what [crypto.getRandomValues] returned and
    [now] what [Date.now()] returned. *)
Definition encrypt (c : crypto_state) (fresh_iv : list byte) (now : Z)
    (record : json) : result envelope :=
  match key c with
  | None => inr (Error "No encryption key")
  | Some k =>
      let encoded := TextEncoder_encode (JSON_stringify record) in
      let encrypted := aes_gcm_encrypt k fresh_iv encoded in
      inl {| version := "1.0"; algorithm := "AES-GCM";
             iv := Array_from fresh_iv; data := Array_from encrypted;
             timestamp := now |}
  end.

Definition decrypt (c : crypto_state) (obj : envelope) : result json :=
  match key c with
  | None => inr (Error "No encryption key")
  | Some k =>
      if negb (String.eqb (version obj) "1.0")
         || negb (String.eqb (algorithm obj) "AES-GCM")
      then inr (Error "Unsupported format")
      else
        match aes_gcm_decrypt k (Uint8Array (iv obj)) (Uint8Array (data obj)) with
        | None => inr OperationError
        | Some decrypted =>
            match JSON_parse (TextDecoder_decode decrypted) with
            | Some v => inl v
            | None => inr SyntaxError
            end
        end
  end.

Definition cleanup (c : crypto_state) : crypto_state := crypto_new.

End SecureCrypto.

(** ** Database (client/app.js) *)

(** A document of the accounts database. *)
Record account : Type := {
  acct_id : string;
  acct_name : string;
  acct_salt : list Z;
  acct_verifier : list Z;
  acct_createdAt : string
}.

(** A document of a per-account database. *)
Record doc : Type := {
  doc_id : string;
  doc_type : string;
  doc_encryptedData : option envelope;
  doc_createdAt : string;
  doc_updatedAt : option string
}.

(** The fields of the [Database] object.  [accountsDB] is the content of the
    PouchDB database of accounts; [userDB] is the handle made at sign-in, the
    name of the per-account database, or [None] for [null]. *)
Record database `{SubtleCrypto} : Type := {
  accountsDB : gmap string account;
  userDB : option string;
  crypto : crypto_state;
  isSyncing : bool;
  pendingSync : bool
}.

(** PouchDB, as far as the client relies on it: [get] rejects with status
    404 for an absent id, [put] of a document without revision rejects with
    409 when the id exists, [allDocs] lists the documents. *)
Definition pouch_get {A : Type} (db : gmap string A) (id : string) : result A :=
  match db !! id with
  | Some d => inl d
  | None => inr (PouchError 404 "not_found")
  end.

Definition pouch_put_new {A : Type} (db : gmap string A) (id : string) (d : A)
  : result (gmap string A) :=
  match db !! id with
  | Some _ => inr (PouchError 409 "conflict")
  | None => inl (<[id := d]> db)
  end.

Definition id_le (a b : doc) : Prop := String.leb (doc_id a) (doc_id b) = true.

#[global] Instance id_le_dec (a b : doc) : Decision (id_le a b).
Proof. unfold id_le. apply _. Defined.

(** [allDocs({include_docs: true})]: the documents in the order of their
    ids. *)
Definition allDocs (db : gmap string doc) : list doc :=
  merge_sort id_le (map_to_list db).*2.

Definition user_db_name (accountId : string) : string :=
  "guardfin-user-" +:+ accountId.

Section Database.
Context `{SubtleCrypto} `{JSONCodec}.

Definition database_new : database :=
  {| accountsDB := ∅; userDB := None; crypto := crypto_new;
     isSyncing := false; pendingSync := false |}.

Definition set_accountsDB (a : gmap string account) (d : database) : database :=
  {| accountsDB := a; userDB := userDB d; crypto := crypto d;
     isSyncing := isSyncing d; pendingSync := pendingSync d |}.

Definition set_session (u : option string) (c : crypto_state) (d : database)
  : database :=
  {| accountsDB := accountsDB d; userDB := u; crypto := c;
     isSyncing := isSyncing d; pendingSync := pendingSync d |}.

Definition set_flags (syncing pending : bool) (d : database) : database :=
  {| accountsDB := accountsDB d; userDB := userDB d; crypto := crypto d;
     isSyncing := syncing; pendingSync := pending |}.

(** [createAccount]; [uuid], [fresh_salt] and [now] are what
    [generateUUID], [generateSalt] and [new Date().toISOString()] gave. *)
Definition createAccount (d : database) (uuid : string) (fresh_salt : list byte)
    (now : string) (name passphrase : string) : result (string * database) :=
  let verifier := createVerifier passphrase fresh_salt in
  await a := pouch_put_new (accountsDB d) uuid
               {| acct_id := uuid; acct_name := name;
                  acct_salt := Array_from fresh_salt;
                  acct_verifier := verifier; acct_createdAt := now |} in
  inl (uuid, set_accountsDB a d).

Definition signIn (d : database) (accountId passphrase : string)
  : result (account * database) :=
  await account := pouch_get (accountsDB d) accountId in
  let salt := Uint8Array (acct_salt account) in
  if negb (verifyPassword passphrase salt (acct_verifier account))
  then inr (Error "Invalid passphrase")
  else
    let c := {| accountId := Some accountId; salt := Some salt;
                key := Some (deriveKey passphrase salt) |} in
    inl (account, set_session (Some (user_db_name accountId)) c d).

Definition signOut (d : database) : database :=
  set_session None (cleanup (crypto d)) d.

(** [App.login] past its empty-passphrase check: the text its [catch] puts
    into the [loginError] element, [None] when [signIn] returned (the call
    of [onSignIn] that follows is user-interface code and is left out). *)
Definition App_login (d : database) (accountId passphrase : string)
  : option string * database :=
  match signIn d accountId passphrase with
  | inl (_, d') => (None, d')
  | inr _ => (Some "Invalid passphrase", d)
  end.

(** The object literal pushed by [getAll] for one decrypted document. *)
Definition decrypted_record (row : doc) (data : json) : list (string * json) :=
  spread_into
    [("_id", JStr (doc_id row)); ("type", JStr (doc_type row));
     ("createdAt", JStr (doc_createdAt row))]
    data.

(** The loop of [getAll] over the rows of [allDocs]: [decrypted] is the
    array being filled, [console] the errors logged by the [catch]. *)
Fixpoint getAll_loop (c : crypto_state) (rows : list doc)
    (decrypted : list (list (string * json))) (console : list exn)
  : list (list (string * json)) * list exn :=
  match rows with
  | [] => (decrypted, console)
  | row :: rows' =>
      match doc_encryptedData row with
      | Some e =>
          match decrypt c e with
          | inl data =>
              getAll_loop c rows' (decrypted ++ [decrypted_record row data]) console
          | inr err => getAll_loop c rows' decrypted (console ++ [err])
          end
      | None => getAll_loop c rows' decrypted console
      end
  end.

(** [getAll] and [getByType] over the per-account databases [stores]; the
    second component is what was written to the console. *)
Definition getAll (d : database) (stores : gmap string (gmap string doc))
  : list (list (string * json)) * list exn :=
  match userDB d with
  | None => ([], [])
  | Some h => getAll_loop (crypto d) (allDocs (default ∅ (stores !! h))) [] []
  end.

Definition type_is (type : string) (r : list (string * json)) : bool :=
  match assoc "type" r with
  | Some (JStr t) => String.eqb t type
  | _ => false
  end.

Definition getByType (d : database) (stores : gmap string (gmap string doc))
    (type : string) : list (list (string * json)) * list exn :=
  let '(all, console) := getAll d stores in
  (filter (fun r => type_is type r = true) all, console).

End Database.

(** ** The sync engine: [scheduleSync], [syncToServer] and the event loop *)

(** The change a [save], [update] or [delete] makes to the per-account
    database before it calls [scheduleSync]. *)
Inductive mutation : Type :=
  | PutDoc (d : doc)           (* [save] and [update] *)
  | RemoveDoc (id : string).   (* [delete] *)

(** The body of the POST built by [syncToServer] ([settings] is [{}]). *)
Record batch : Type := {
  batch_accountId : option string;
  transactions : list doc;
  recurring_bills : list doc;
  goals : list doc;
  budgets : list doc;
  reminders : list doc
}.

(** A suspended body of [syncToServer]: at its first [await] (reading the
    documents of the database whose handle it took) or at its second (the
    request is on the network). *)
Inductive sync_task : Type :=
  | AwaitAllDocs (handle : string)
  | AwaitFetch.

(** The [Database] object and what surrounds it: the per-account databases,
    the clock in milliseconds, the due times of the pending
    [setTimeout(() => this.syncToServer(), 2000)] callbacks, the suspended
    [syncToServer] bodies, and three logs: the times at which a
    [syncToServer] call got past its guard, the requests sent, and the
    arguments of [App.updateSyncStatus]. *)
Record system `{SubtleCrypto} : Type := {
  db : database;
  stores : gmap string (gmap string doc);
  clock : Z;
  timers : list Z;
  running : list sync_task;
  started : list Z;
  requests : list batch;
  statuses : list string
}.

(** What happens around the object. *)
Inductive event : Type :=
  | Mutate (m : mutation)          (* a save/update/delete reaches its last line *)
  | Advance (t : Z)                (* time passes until [t]; due timers fire *)
  | DocsRead                       (* [allDocs] of a sync resolves *)
  | DocsFail                       (* [allDocs] of a sync rejects *)
  | FetchDone (ok : bool)          (* the response arrives, [response.ok] *)
  | FetchFail                      (* [fetch] rejects *)
  | CreateAccount (uuid : string) (fresh_salt : list byte) (now : string)
      (name passphrase : string)
  | SignIn (accountId passphrase : string)
  | SignOut.

Section SyncEngine.
Context `{SubtleCrypto} `{JSONCodec}.

Definition with_db (d : database) (s : system) : system :=
  {| db := d; stores := stores s; clock := clock s; timers := timers s;
     running := running s; started := started s; requests := requests s;
     statuses := statuses s |}.

Definition system_new : system :=
  {| db := database_new; stores := ∅; clock := 0; timers := [];
     running := []; started := []; requests := []; statuses := [] |}.

Definition scheduleSync (s : system) : system :=
  if pendingSync (db s) then s
  else
    {| db := set_flags (isSyncing (db s)) true (db s);
       stores := stores s; clock := clock s;
       timers := timers s ++ [clock s + 2000];
       running := running s; started := started s; requests := requests s;
       statuses := statuses s |}.

(** [syncToServer] up to its first [await]. *)
Definition syncToServer (s : system) : system :=
  match isSyncing (db s), userDB (db s) with
  | false, Some h =>
      {| db := set_flags true false (db s);
         stores := stores s; clock := clock s; timers := timers s;
         running := running s ++ [AwaitAllDocs h];
         started := started s ++ [clock s];
         requests := requests s;
         statuses := statuses s ++ ["syncing"] |}
  | _, _ => s
  end.

Definition of_type (t : string) (rows : list doc) : list doc :=
  filter (fun r => doc_type r = t) rows.

Definition build_batch (c : crypto_state) (rows : list doc) : batch :=
  {| batch_accountId := accountId c;
     transactions := of_type "transaction" rows;
     recurring_bills := of_type "bill" rows;
     goals := of_type "goal" rows;
     budgets := of_type "budget" rows;
     reminders := of_type "reminder" rows |}.

(** Removing the first task for which [p] holds from the queue. *)
Fixpoint take_task (p : sync_task -> bool) (l : list sync_task)
  : option (sync_task * list sync_task) :=
  match l with
  | [] => None
  | t :: l' =>
      if p t then Some (t, l')
      else match take_task p l' with
           | Some (t', l'') => Some (t', t :: l'')
           | None => None
           end
  end.

Definition reading (t : sync_task) : bool :=
  match t with AwaitAllDocs _ => true | AwaitFetch => false end.

Definition fetching (t : sync_task) : bool := negb (reading t).

(** A sync body leaves through [finally]: [status] is the argument of the
    last [App.updateSyncStatus] it made. *)
Definition finish (status : string) (rest : list sync_task) (s : system)
  : system :=
  {| db := set_flags false (pendingSync (db s)) (db s);
     stores := stores s; clock := clock s; timers := timers s;
     running := rest; started := started s; requests := requests s;
     statuses := statuses s ++ [status] |}.

(** From the first [await] to the second: the batch is built from the rows
    and sent. *)
Definition docs_read (s : system) : system :=
  match take_task reading (running s) with
  | Some (AwaitAllDocs h, rest) =>
      let rows := allDocs (default ∅ (stores s !! h)) in
      {| db := db s; stores := stores s; clock := clock s; timers := timers s;
         running := rest ++ [AwaitFetch]; started := started s;
         requests := requests s ++ [build_batch (crypto (db s)) rows];
         statuses := statuses s |}
  | _ => s
  end.

Definition docs_fail (s : system) : system :=
  match take_task reading (running s) with
  | Some (_, rest) => finish "offline" rest s
  | None => s
  end.

Definition fetch_done (ok : bool) (s : system) : system :=
  match take_task fetching (running s) with
  | Some (_, rest) => finish (if ok then "synced" else "error") rest s
  | None => s
  end.

Definition fetch_fail (s : system) : system :=
  match take_task fetching (running s) with
  | Some (_, rest) => finish "offline" rest s
  | None => s
  end.

Definition apply_mutation (m : mutation) (store : gmap string doc)
  : gmap string doc :=
  match m with
  | PutDoc d => <[doc_id d := d]> store
  | RemoveDoc id => delete id store
  end.

(** The last two lines of [save], [update] and [delete]: the write to
    [this.userDB], then [this.scheduleSync()].  Without a session the
    method has thrown at its first line. *)
Definition mutate (m : mutation) (s : system) : system :=
  match userDB (db s) with
  | None => s
  | Some h =>
      scheduleSync
        {| db := db s;
           stores := <[h := apply_mutation m (default ∅ (stores s !! h))]> (stores s);
           clock := clock s; timers := timers s; running := running s;
           started := started s; requests := requests s;
           statuses := statuses s |}
  end.

(** A timer callback runs at its due time. *)
Definition fire (s : system) (due : Z) : system :=
  syncToServer
    {| db := db s; stores := stores s; clock := Z.max (clock s) due;
       timers := timers s; running := running s; started := started s;
       requests := requests s; statuses := statuses s |}.

(** Time passes until [t]: the callbacks due by then run, oldest first. *)
Definition advance (t : Z) (s : system) : system :=
  let due := filter (fun d => d <= t) (timers s) in
  let later := filter (fun d => ~ d <= t) (timers s) in
  let s1 := foldl fire
              {| db := db s; stores := stores s; clock := clock s;
                 timers := later; running := running s; started := started s;
                 requests := requests s; statuses := statuses s |}
              due in
  {| db := db s1; stores := stores s1; clock := Z.max (clock s1) t;
     timers := timers s1; running := running s1; started := started s1;
     requests := requests s1; statuses := statuses s1 |}.

Definition step (s : system) (e : event) : system :=
  match e with
  | Mutate m => mutate m s
  | Advance t => advance t s
  | DocsRead => docs_read s
  | DocsFail => docs_fail s
  | FetchDone ok => fetch_done ok s
  | FetchFail => fetch_fail s
  | CreateAccount uuid fresh_salt now name p =>
      match createAccount (db s) uuid fresh_salt now name p with
      | inl (_, d) => with_db d s
      | inr _ => s
      end
  | SignIn a p =>
      match signIn (db s) a p with
      | inl (_, d) => with_db d s
      | inr _ => s
      end
  | SignOut => with_db (signOut (db s)) s
  end.

Definition run (s : system) (events : list event) : system :=
  foldl step s events.

(** The number of sync requests on the network. *)
Definition in_flight (s : system) : nat :=
  length (filter (fun t => fetching t = true) (running s)).

End SyncEngine.

(** ** The sync route of the server (server/server.js) *)

(** What the server takes from Node: [path.join], the data directory,
    [JSON.stringify(v, null, 2)], and the conversion of a non-string value
    to a string that a template literal and the operator [+] apply.
    [JSON.parse] is the one of [JSONCodec].

    The file system of the model holds the files only.  What else decides
    whether a write goes through (the directories that exist, their
    permissions, the room on the disk) is with the platform:
    [write_error path] is [None] where [writeFileSync] to that path
    completes, and [Some (n, message)] where it throws [message] after the
    first [n] steps of the write, 0 when the file cannot even be opened;
    [rename_error src dst] is the message that [renameSync] of an existing
    [src] to [dst] throws, [None] where it succeeds.  The server makes the
    directory [DB_DIR] and none below it. *)
Class NodeRuntime : Type := {
  path_join : string -> string -> string;
  DB_DIR : string;
  JSON_stringify_indent : json -> string;
  ToString : json -> string;
  write_error : string -> option (nat * string);
  rename_error : string -> string -> option string
}.

Record response : Type := {
  res_status : Z;
  res_body : json
}.

(** [res.json(body)] answers with status 200, [res.status(n).json(body)]
    with [n]. *)
Definition res_json (body : json) : response :=
  {| res_status := 200; res_body := body |}.

Definition res_status_json (n : Z) (body : json) : response :=
  {| res_status := n; res_body := body |}.

(** The number that an integer becomes as a JavaScript number: itself up
    to 2^53 in absolute value, beyond that the nearest integer with 53
    significant bits, the even one of two that are equally near.  (The
    sum of a finite number and 1 never reaches the 2^1024 where rounding
    gives [Infinity].) *)
Definition round_to_double (z : Z) : Z :=
  if Z.ltb (Z.abs z) (2 ^ 53) then z
  else
    let ulp := 2 ^ (Z.log2 (Z.abs z) - 52) in
    let q := z / ulp in
    let r := z mod ulp in
    if Z.ltb (2 * r) ulp then q * ulp
    else if Z.ltb ulp (2 * r) then (q + 1) * ulp
    else if Z.even q then q * ulp
    else (q + 1) * ulp.

(** [v + 1]: the sum of two numbers is the exact sum, rounded. *)
Definition plus_one `{NodeRuntime} (v : json) : json :=
  match v with
  | JNum z => JNum (round_to_double (z + 1))
  | JNull => JNum 1
  | JBool b => JNum (if b then 2 else 1)
  | JStr s => JStr (s +:+ "1")
  | JArr _ | JObj _ => JStr (ToString v +:+ "1")
  end.

(** [`${v}`]. *)
Definition template `{NodeRuntime} (v : option json) : string :=
  match v with
  | Some (JStr s) => s
  | Some v => ToString v
  | None => "undefined"
  end.

Section Server.
Context `{JSONCodec} `{NodeRuntime}.

(** The loop of [validateSyncData] over [Object.entries(dataTypes)]:
    the answer of the first entry that is present and not an array. *)
Fixpoint check_arrays (entries : list (string * option json)) : option response :=
  match entries with
  | [] => None
  | (type, data) :: rest =>
      if bool_decide (data <> None) && negb (isArray data)
      then Some (res_status_json 400
                   (JObj [("error", JStr (type +:+ " must be an array"))]))
      else check_arrays rest
  end.

(** [validateSyncData]: [Some] is the answer it sends, [None] is [next()]. *)
Definition validateSyncData (body : json) : option response :=
  let accountId := get_field "accountId" body in
  if negb (truthy accountId) || negb (is_string accountId)
  then Some (res_status_json 400 (JObj [("error", JStr "Valid accountId required")]))
  else
    check_arrays
      [("transactions", get_field "transactions" body);
       ("recurring_bills", get_field "recurring_bills" body);
       ("goals", get_field "goals" body);
       ("budgets", get_field "budgets" body);
       ("reminders", get_field "reminders" body)].

(** The file system: the content of every file by path.  A computation
    of the server on it gives, from the state it starts in, the states the
    file system then passes through, in order (none when nothing is
    written), and the value it returns or the exception it throws.  The
    state it leaves is the last of those states, or the one it started in.
    A crash of the process leaves the disk in the state it started in or in
    one of the states passed through. *)
Definition io (A : Type) : Type :=
  gmap string string -> list (gmap string string) * result A.

Definition left_by (fs : gmap string string) (states : list (gmap string string))
  : gmap string string :=
  default fs (last states).

Definition io_ret {A : Type} (a : A) : io A := fun _ => ([], inl a).

(** [m; k]: what [k] does starts where [m] left the file system. *)
Definition io_bind {A B : Type} (m : io A) (k : A -> io B) : io B := fun fs =>
  let '(states, r) := m fs in
  match r with
  | inl a =>
      let '(states', r') := k a (left_by fs states) in (states ++ states', r')
  | inr e => (states, inr e)
  end.

(** [try { m } catch (e) { handler }]. *)
Definition io_catch {A : Type} (m : io A) (handler : exn -> io A) : io A := fun fs =>
  let '(states, r) := m fs in
  match r with
  | inl a => (states, inl a)
  | inr e =>
      let '(states', r') := handler e (left_by fs states) in
      (states ++ states', r')
  end.

(** The states a file system goes through while [writeFileSync] fills a
    file: the file holds a longer and longer prefix of [content]. *)
Definition writeFileSync_states (path content : string) (fs : gmap string string)
  : list (gmap string string) :=
  map (fun n => <[path := String.substring 0 n content]> fs)
      (seq 0 (S (String.length content))).

(** [fs.writeFileSync(path, content)]: fills the file, or throws on the
    way and leaves what it has written. *)
Definition writeFileSync (path content : string) : io unit := fun fs =>
  match write_error path with
  | Some (n, message) =>
      (take n (writeFileSync_states path content fs), inr (Error message))
  | None => (writeFileSync_states path content fs, inl tt)
  end.

(** [fs.renameSync(src, dst)]: replaces [dst] in one step, or throws and
    leaves both files. *)
Definition renameSync (src dst : string) : io unit := fun fs =>
  match fs !! src with
  | Some content =>
      match rename_error src dst with
      | None => ([<[dst := content]> (delete src fs)], inl tt)
      | Some message => ([], inr (Error message))
      end
  | None => ([], inr (Error "ENOENT: no such file or directory"))
  end.

Definition dataFile_of (body : json) : string :=
  path_join DB_DIR (template (get_field "accountId" body) +:+ ".json").

(** The object [encryptedData] before the counter is looked up. *)
Definition fresh_bundle (now : string) (body : json) : list (string * json) :=
  [("transactions", or_default (get_field "transactions" body) (JArr []));
   ("recurring_bills", or_default (get_field "recurring_bills" body) (JArr []));
   ("goals", or_default (get_field "goals" body) (JArr []));
   ("budgets", or_default (get_field "budgets" body) (JArr []));
   ("reminders", or_default (get_field "reminders" body) (JArr []));
   ("settings", or_default (get_field "settings" body) (JObj []));
   ("lastSync", JStr now);
   ("syncCount", JNum 0)].

(** The inner [try]: reading the counter of the stored bundle.  A file that
    does not parse, or that parses to [null], leaves the bundle as it is. *)
Definition with_syncCount (fs : gmap string string) (dataFile : string)
    (encryptedData : list (string * json)) : list (string * json) :=
  match fs !! dataFile with
  | Some content =>
      match JSON_parse content with
      | Some JNull => encryptedData
      | Some existing =>
          obj_set "syncCount"
            (plus_one (or_default (get_field "syncCount" existing) (JNum 0)))
            encryptedData
      | None => encryptedData
      end
  | None => encryptedData
  end.

Definition bundle_of (fs : gmap string string) (now : string) (body : json)
  : list (string * json) :=
  with_syncCount fs (dataFile_of body) (fresh_bundle now body).

(** The handler of [POST /api/sync] as a computation on the file system;
    [now] is [new Date().toISOString()].  The bundle is built from the
    state the handler starts in; the two writes are inside the [try], and
    the [catch] answers 500. *)
Definition sync_handler_io (now : string) (body : json) : io response := fun fs =>
  let dataFile := dataFile_of body in
  let encryptedData := bundle_of fs now body in
  let tempFile := dataFile +:+ ".tmp" in
  io_catch
    (io_bind (writeFileSync tempFile (JSON_stringify_indent (JObj encryptedData)))
       (fun _ =>
     io_bind (renameSync tempFile dataFile)
       (fun _ =>
     io_ret
       (res_json (JObj [("message", JStr "Data synced successfully");
                        ("syncCount", default JNull (assoc "syncCount" encryptedData));
                        ("timestamp", default JNull (assoc "lastSync" encryptedData))])))))
    (fun _ =>
       io_ret (res_status_json 500 (JObj [("error", JStr "Failed to sync data")])))
    fs.

(** The answer of the handler and the file system it leaves.  An exception
    that left the handler would go to the error middleware of the server;
    the [catch] lets none out. *)
Definition sync_handler (fs : gmap string string) (now : string) (body : json)
  : response * gmap string string :=
  let '(states, r) := sync_handler_io now body fs in
  (match r with
   | inl answer => answer
   | inr _ =>
       res_status_json 500
         (JObj [("error", JStr "Internal server error"); ("timestamp", JStr now)])
   end,
   left_by fs states).

(** The route: the validation middleware, then the handler. *)
Definition post_api_sync (fs : gmap string string) (now : string) (body : json)
  : response * gmap string string :=
  match validateSyncData body with
  | Some r => (r, fs)
  | None => sync_handler fs now body
  end.

(** Every state of the file system from the call of the handler to its
    return, in order: the one it starts in, then the ones the handler
    passes through.  A crash leaves the disk in one of them. *)
Definition sync_handler_states (fs : gmap string string) (now : string)
    (body : json) : list (gmap string string) :=
  fs :: (sync_handler_io now body fs).1.

End Server.

(** ** More of SecureCrypto, Database and App (client/app.js) *)

(** [a & b]. *)
Definition js_and (a b : Z) : Z := Z.land (toInt32 a) (toInt32 b).

(** [n.toString(16)] for [n] below 256, and [s.padStart(len, fill)]. *)
Definition hex_digit (n : N) : ascii :=
  default "0"%char (String.get (N.to_nat n) "0123456789abcdef").

Definition toString16 (n : N) : string :=
  if (n <? 16)%N then String (hex_digit n) EmptyString
  else String (hex_digit (n / 16)) (String (hex_digit (n mod 16)) EmptyString).

Definition padStart (len : nat) (fill : ascii) (s : string) : string :=
  String.string_of_list_ascii (replicate (len - String.length s) fill) +:+ s.

(** [s.slice(from, to)] and [s.slice(from)] for indices within [s]. *)
Definition slice (from to : nat) (s : string) : string :=
  String.substring from (to - from) s.

Definition slice_from (from : nat) (s : string) : string :=
  String.substring from (String.length s - from) s.

(** [generateUUID]; [random] is the array after [crypto.getRandomValues]. *)
Definition generateUUID (random : list byte) : string :=
  let arr := random in
  let arr := alter (fun b => Z_to_byte (js_or (js_and (byte_to_Z b) 15) 64)) 6%nat arr in
  let arr := alter (fun b => Z_to_byte (js_or (js_and (byte_to_Z b) 63) 128)) 8%nat arr in
  let hex := String.concat EmptyString
               (map (fun b => padStart 2 "0" (toString16 (Byte.to_N b))) arr) in
  slice 0 8 hex +:+ "-" +:+ slice 8 12 hex +:+ "-" +:+ slice 12 16 hex +:+ "-"
    +:+ slice 16 20 hex +:+ "-" +:+ slice_from 20 hex.

(** The object returned by [App.getPasswordStrength]. *)
Record strength : Type := {
  score : Z;
  label : string;
  color : string;
  width : Z
}.

(** The character classes of the regular expressions of
    [getPasswordStrength], on UTF-16 code units. *)
Definition lower_case (u : Z) : bool := Z.leb 97 u && Z.leb u 122.
Definition upper_case (u : Z) : bool := Z.leb 65 u && Z.leb u 90.
Definition digit (u : Z) : bool := Z.leb 48 u && Z.leb u 57.
Definition other_char (u : Z) : bool :=
  negb (upper_case u || lower_case u || digit u).

(** [App.getPasswordStrength]; [pass] is the passphrase as the sequence of
    its UTF-16 code units, which is what [length] and the regular
    expressions see. *)
Definition getPasswordStrength (pass : list Z) : strength :=
  let score := 0 in
  let score := if (12 <=? length pass)%nat then score + 1 else score in
  let score := if (16 <=? length pass)%nat then score + 1 else score in
  let score := if existsb lower_case pass then score + 1 else score in
  let score := if existsb upper_case pass then score + 1 else score in
  let score := if existsb digit pass then score + 1 else score in
  let score := if existsb other_char pass then score + 1 else score in
  if Z.leb score 2 then
    {| score := score; label := "Weak"; color := "var(--danger)"; width := 25 |}
  else if Z.leb score 4 then
    {| score := score; label := "Medium"; color := "var(--warning)"; width := 60 |}
  else
    {| score := score; label := "Strong"; color := "var(--success)"; width := 100 |}.

(** ** TransactionParser.categorize (client/app.js) *)

(** [String.prototype.toLowerCase]. *)
Class StringRuntime : Type := {
  toLowerCase : string -> string
}.

(** [s.includes(k)]. *)
Fixpoint includes (k s : string) : bool :=
  String.prefix k s
  || match s with
     | EmptyString => false
     | String _ s' => includes k s'
     end.

(** [this.categories], in the order of its keys. *)
Definition categories : list (string * list string) :=
  [("Food & Dining",
    ["grocery"; "groceries"; "food"; "restaurant"; "cafe"; "coffee"; "lunch";
     "dinner"; "breakfast"; "pizza"; "burger"; "takeout"; "uber eats";
     "doordash"; "walmart"; "costco"; "target"]);
   ("Transportation",
    ["gas"; "fuel"; "uber"; "lyft"; "taxi"; "bus"; "metro"; "train"; "parking";
     "car"]);
   ("Shopping",
    ["amazon"; "shopping"; "clothes"; "shoes"; "electronics"; "store"; "mall"]);
   ("Entertainment",
    ["movie"; "netflix"; "spotify"; "game"; "concert"; "streaming"; "hulu";
     "disney"]);
   ("Bills & Utilities",
    ["electric"; "water"; "internet"; "phone"; "utility"; "rent"; "mortgage";
     "insurance"]);
   ("Healthcare",
    ["doctor"; "hospital"; "pharmacy"; "medicine"; "medical"; "dentist";
     "health"]);
   ("Income",
    ["salary"; "paycheck"; "income"; "bonus"; "refund"; "deposit";
     "payment received"])].

(** The loop of [categorize] over [Object.entries(this.categories)]:
    [Some] is the category it returns, [None] is falling out of the loop. *)
Fixpoint categorize_loop (lower type : string)
    (entries : list (string * list string)) : option string :=
  match entries with
  | [] => None
  | (cat, keywords) :: rest =>
      if String.eqb type "income" && negb (String.eqb cat "Income")
      then categorize_loop lower type rest
      else if existsb (fun k => includes k lower) keywords then Some cat
      else categorize_loop lower type rest
  end.

Definition categorize `{StringRuntime} (text type : string) : string :=
  let lower := toLowerCase text in
  match categorize_loop lower type categories with
  | Some cat => cat
  | None => if String.eqb type "income" then "Income" else "Other"
  end.

(** ** Database: the account list and the three writes (client/app.js) *)

(** What [getAccounts] returns for one account. *)
Record account_summary : Type := {
  sum_id : string;
  sum_name : string;
  sum_createdAt : string
}.

Definition acct_le (a b : account) : Prop :=
  String.leb (acct_id a) (acct_id b) = true.

#[global] Instance acct_le_dec (a b : account) : Decision (acct_le a b).
Proof. unfold acct_le. apply _. Defined.

Section Writes.
Context `{SubtleCrypto} `{JSONCodec}.

Definition getAccounts (d : database) : list account_summary :=
  map (fun a => {| sum_id := acct_id a; sum_name := acct_name a;
                   sum_createdAt := acct_createdAt a |})
      (merge_sort acct_le (map_to_list (accountsDB d)).*2).

Definition with_stores (st : gmap string (gmap string doc)) (s : system) : system :=
  {| db := db s; stores := st; clock := clock s; timers := timers s;
     running := running s; started := started s; requests := requests s;
     statuses := statuses s |}.

(** [save]; [random] and [fresh_iv] are what [crypto.getRandomValues] gave
    to [generateUUID] and to [encrypt], [now_ms] is [Date.now()] and [now]
    is [new Date().toISOString()].  A rejection leaves the state as it
    was. *)
Definition save (s : system) (random fresh_iv : list byte) (now_ms : Z)
    (now : string) (type : string) (data : json) : result (string * system) :=
  match userDB (db s) with
  | None => inr (Error "Not signed in")
  | Some h =>
      let id := type +:+ "_" +:+ generateUUID random in
      await encrypted := encrypt (crypto (db s)) fresh_iv now_ms data in
      await store := pouch_put_new (default ∅ (stores s !! h)) id
                       {| doc_id := id; doc_type := type;
                          doc_encryptedData := Some encrypted;
                          doc_createdAt := now; doc_updatedAt := None |} in
      inl (id, scheduleSync (with_stores (<[h := store]> (stores s)) s))
  end.

(** [update]: the document read by [get] carries its revision, so the
    [put] of its copy replaces it. *)
Definition update (s : system) (fresh_iv : list byte) (now_ms : Z)
    (now : string) (docId : string) (data : json) : result system :=
  match userDB (db s) with
  | None => inr (Error "Not signed in")
  | Some h =>
      await d := pouch_get (default ∅ (stores s !! h)) docId in
      await encrypted := encrypt (crypto (db s)) fresh_iv now_ms data in
      let d' := {| doc_id := doc_id d; doc_type := doc_type d;
                   doc_encryptedData := Some encrypted;
                   doc_createdAt := doc_createdAt d;
                   doc_updatedAt := Some now |} in
      inl (scheduleSync
             (with_stores (<[h := <[docId := d']> (default ∅ (stores s !! h))]>
                             (stores s)) s))
  end.

(** [delete]. *)
Definition delete_doc (s : system) (docId : string) : result system :=
  match userDB (db s) with
  | None => inr (Error "Not signed in")
  | Some h =>
      await d := pouch_get (default ∅ (stores s !! h)) docId in
      inl (scheduleSync
             (with_stores (<[h := delete docId (default ∅ (stores s !! h))]>
                             (stores s)) s))
  end.

End Writes.

(** ** The data routes of the server (server/server.js) *)

(** [v === s] for a string [s]. *)
Definition is_the_string (s : string) (v : option json) : bool :=
  match v with
  | Some (JStr t) => String.eqb t s
  | _ => false
  end.

Section DataRoutes.
Context `{JSONCodec} `{NodeRuntime}.

Definition accountFile (accountId : string) : string :=
  path_join DB_DIR (accountId +:+ ".json").

(** The body that [GET /api/data/:accountId] sends when no file exists. *)
Definition empty_defaults : json :=
  JObj [("transactions", JArr []); ("recurring_bills", JArr []);
        ("goals", JArr []); ("budgets", JArr []); ("reminders", JArr []);
        ("settings", JObj []); ("lastSync", JNull)].

(** The handler of [GET /api/data/:accountId]; [accountId] is the route
    parameter, a string.  A file that does not parse makes [JSON.parse]
    throw, and the [catch] answers 500. *)
Definition get_data_handler (fs : gmap string string) (now : string)
    (accountId : string) : response :=
  if negb (truthy (Some (JStr accountId)))
  then res_status_json 400 (JObj [("error", JStr "Valid accountId required")])
  else
    match fs !! accountFile accountId with
    | None => res_json empty_defaults
    | Some content =>
        match JSON_parse content with
        | Some encryptedData =>
            res_json (JObj (obj_set "lastSync" (JStr now)
                              (spread_into [] encryptedData)))
        | None => res_status_json 500 (JObj [("error", JStr "Failed to read data")])
        end
    end.

(** The handler of [DELETE /api/data/:accountId]; [body] is [req.body]. *)
Definition delete_data_handler (fs : gmap string string) (now : string)
    (accountId : string) (body : json) : response * gmap string string :=
  if negb (truthy (Some (JStr accountId)))
  then (res_status_json 400 (JObj [("error", JStr "Valid accountId required")]), fs)
  else
    if negb (is_the_string "DELETE_ALL_DATA" (get_field "confirmDelete" body))
    then (res_status_json 400 (JObj [("error", JStr "Confirmation string required")]),
          fs)
    else
      (res_json (JObj [("message", JStr "Account data deleted successfully");
                       ("timestamp", JStr now)]),
       match fs !! accountFile accountId with
       | Some _ => delete (accountFile accountId) fs
       | None => fs
       end).

End DataRoutes.

(** ** Test doubles of the platform interfaces

    Small executable implementations, used to run the embedding on concrete
    inputs.  The cipher prefixes the plaintext with key and iv and checks
    that prefix on decryption; the key derivation concatenates passphrase
    and salt; the JSON printer and parser cover integers, strings without
    escapes, arrays and objects, without white space. *)
Module Double.

Fixpoint strip_prefix (p l : list byte) : option (list byte) :=
  match p, l with
  | [], _ => Some l
  | a :: p', b :: l' => if Byte.eqb a b then strip_prefix p' l' else None
  | _ :: _, [] => None
  end.

Definition derive (passphrase : string) (salt : list byte) : list byte :=
  (String.list_byte_of_string passphrase ++ salt)%list.

#[export] Instance subtle : SubtleCrypto := {|
  CryptoKey := list byte;
  pbkdf2_deriveBits := fun p s _ bits =>
    take (Z.to_nat (bits / 8)) (derive p s ++ replicate 32 x00)%list;
  pbkdf2_deriveKey := fun p s _ => derive p s;
  aes_gcm_encrypt := fun k iv pt => (k ++ iv ++ pt)%list;
  aes_gcm_decrypt := fun k iv ct => strip_prefix (k ++ iv)%list ct
|}.

Definition join (sep : string) (l : list string) : string :=
  match l with
  | [] => EmptyString
  | x :: l' => foldl (fun acc y => acc +:+ sep +:+ y) x l'
  end.

Definition dquote : ascii := Ascii.ascii_of_nat 34.

Definition quote (s : string) : string :=
  String dquote (s +:+ String dquote EmptyString).

Fixpoint print (v : json) : string :=
  match v with
  | JNull => "null"
  | JBool b => if b then "true" else "false"
  | JNum z => pretty z
  | JStr s => quote s
  | JArr l => "[" +:+ join "," (map print l) +:+ "]"
  | JObj fields =>
      "{" +:+ join "," (map (fun kv => quote kv.1 +:+ ":" +:+ print kv.2) fields)
          +:+ "}"
  end.

Definition is_digit (c : ascii) : bool :=
  let n := Ascii.nat_of_ascii c in (48 <=? n)%nat && (n <=? 57)%nat.

Fixpoint digits (l : list ascii) (acc : Z) : Z * list ascii :=
  match l with
  | c :: l' =>
      if is_digit c
      then digits l' (10 * acc + Z.of_nat (Ascii.nat_of_ascii c - 48))
      else (acc, l)
  | [] => (acc, l)
  end.

Fixpoint until_quote (l : list ascii) : option (string * list ascii) :=
  match l with
  | [] => None
  | c :: l' =>
      if Ascii.eqb c dquote then Some (EmptyString, l')
      else match until_quote l' with
           | Some (s, rest) => Some (String c s, rest)
           | None => None
           end
  end.

Definition expect (s : string) (v : json) (l : list ascii)
  : option (json * list ascii) :=
  let p := String.list_ascii_of_string s in
  if bool_decide (take (length p) l = p) then Some (v, drop (length p) l)
  else None.

(** Recursive descent with fuel: a value, the rest of an array after its
    first bracket, the rest of an object after its first brace. *)
Fixpoint value (fuel : nat) (l : list ascii) : option (json * list ascii) :=
  match fuel with
  | O => None
  | S fuel' =>
      let elements := fix elements (n : nat) (l : list ascii) (acc : list json)
          : option (json * list ascii) :=
        match n with
        | O => None
        | S n' =>
            match value fuel' l with
            | Some (v, c :: rest) =>
                if Ascii.eqb c "," then elements n' rest (acc ++ [v])
                else if Ascii.eqb c "]" then Some (JArr (acc ++ [v]), rest)
                else None
            | _ => None
            end
        end in
      let members := fix members (n : nat) (l : list ascii)
          (acc : list (string * json)) : option (json * list ascii) :=
        match n with
        | O => None
        | S n' =>
            match l with
            | q :: l1 =>
                if Ascii.eqb q dquote then
                  match until_quote l1 with
                  | Some (k, colon :: l2) =>
                      if Ascii.eqb colon ":" then
                        match value fuel' l2 with
                        | Some (v, c :: rest) =>
                            if Ascii.eqb c "," then members n' rest (acc ++ [(k, v)])
                            else if Ascii.eqb c "}" then Some (JObj (acc ++ [(k, v)]), rest)
                            else None
                        | _ => None
                        end
                      else None
                  | _ => None
                  end
                else None
            | [] => None
            end
        end in
      match l with
      | [] => None
      | c :: rest =>
          if Ascii.eqb c "n" then expect "null" JNull l
          else if Ascii.eqb c "t" then expect "true" (JBool true) l
          else if Ascii.eqb c "f" then expect "false" (JBool false) l
          else if Ascii.eqb c dquote then
            match until_quote rest with
            | Some (s, rest') => Some (JStr s, rest')
            | None => None
            end
          else if Ascii.eqb c "-" then
            let '(z, rest') := digits rest 0 in Some (JNum (- z), rest')
          else if is_digit c then
            let '(z, rest') := digits l 0 in Some (JNum z, rest')
          else if Ascii.eqb c "[" then
            match rest with
            | c' :: rest' =>
                if Ascii.eqb c' "]" then Some (JArr [], rest')
                else elements (length l) rest []
            | [] => None
            end
          else if Ascii.eqb c "{" then
            match rest with
            | c' :: rest' =>
                if Ascii.eqb c' "}" then Some (JObj [], rest')
                else members (length l) rest []
            | [] => None
            end
          else None
      end
  end.

Definition parse (s : string) : option json :=
  let l := String.list_ascii_of_string s in
  match value (S (length l)) l with
  | Some (v, []) => Some v
  | _ => None
  end.

#[export] Instance codec : JSONCodec := {|
  JSON_stringify := print;
  JSON_parse := parse;
  TextEncoder_encode := String.list_byte_of_string;
  TextDecoder_decode := String.string_of_list_byte
|}.

(** The data directory of the double has no directory below it: a path can
    be written when [secure-data/] is the only directory in it. *)
Definition slashes (path : string) : nat :=
  length (filter (fun c => c = "/"%char) (String.list_ascii_of_string path)).

#[export] Instance node : NodeRuntime := {|
  path_join := fun dir file => dir +:+ "/" +:+ file;
  DB_DIR := "secure-data";
  JSON_stringify_indent := print;
  ToString := print;
  write_error := fun path =>
    if (slashes path =? 1)%nat then None
    else Some (0%nat, "ENOENT: no such file or directory");
  rename_error := fun _ _ => None
|}.

Definition amount42 : json :=
  JObj [("amount", JNum 42); ("category", JStr "Food & Dining");
        ("tags", JArr [JStr "a"; JNull; JBool true])].

(** The crypto fields after a sign-in with passphrase hunter2. *)
Definition session : crypto_state :=
  {| key := Some (deriveKey "hunter2" [x01]);
     accountId := Some "alex"; salt := Some [x01] |}.

(** The [Database] object after
    [createAccount("Alex", "CorrectHorseBattery9!")] returned [alex_id]. *)
Definition alex_id : string := "3f2b8c1e-0d4a-4b6f-9a7e-5c1d2e3f4a5b".

Definition alex_db : database :=
  match createAccount database_new alex_id [x0a; x0b; x0c]
          "2024-01-01T00:00:00.000Z" "Alex" "CorrectHorseBattery9!" with
  | inl (_, d) => d
  | inr _ => database_new
  end.

(** Stored documents: a budget, a transaction whose data has a [type] of
    its own, a document whose envelope was written under another key, and
    one with an envelope of another version. *)
Definition seal (c : crypto_state) (fresh_iv : list byte) (record : json) : envelope :=
  match encrypt c fresh_iv 1700000000000 record with
  | inl e => e
  | inr _ => {| version := "0"; algorithm := "none"; iv := []; data := [];
                timestamp := 0 |}
  end.

Definition stored (id type : string) (e : envelope) : doc :=
  {| doc_id := id; doc_type := type; doc_encryptedData := Some e;
     doc_createdAt := "2024-01-02T00:00:00.000Z"; doc_updatedAt := None |}.

Definition budget_doc : doc :=
  stored "budget_1" "budget"
    (seal session [x01] (JObj [("category", JStr "Food"); ("amount", JNum 500)])).

Definition expense_doc : doc :=
  stored "transaction_2" "transaction"
    (seal session [x02] (JObj [("amount", JNum 42); ("type", JStr "expense")])).

Definition foreign_doc : doc :=
  stored "budget_3" "budget"
    (seal {| key := Some (deriveKey "other" [x09]); accountId := Some "eve";
             salt := Some [x09] |} [x03] (JObj [("amount", JNum 1)])).

Definition old_doc : doc :=
  stored "goal_4" "goal"
    {| version := "0.9"; algorithm := "AES-GCM"; iv := [1]; data := [2];
       timestamp := 0 |}.

Definition alex_store : gmap string (gmap string doc) :=
  {[ user_db_name "alex" :=
       list_to_map (map (fun d => (doc_id d, d))
                      [budget_doc; expense_doc; foreign_doc; old_doc]) ]}.

Definition alex_session : database :=
  {| accountsDB := ∅; userDB := Some (user_db_name "alex"); crypto := session;
     isSyncing := false; pendingSync := false |}.

(** Two runs of the client from the construction of the [Database] object.
    In [burst] a second edit follows the first within the 2 seconds.  In
    [overlap] the request of the first sync is still on the network when the
    timer of a second edit fires. *)
Definition sign_up : list event :=
  [CreateAccount alex_id [x0a; x0b; x0c] "2024-01-01T00:00:00.000Z" "Alex"
     "CorrectHorseBattery9!";
   SignIn alex_id "CorrectHorseBattery9!"].

Definition burst : list event :=
  sign_up ++ [Mutate (PutDoc budget_doc); Advance 1500;
              Mutate (PutDoc expense_doc); Advance 10000].

Definition overlap : list event :=
  sign_up ++ [Mutate (PutDoc budget_doc); Advance 2000; DocsRead;
              Advance 2500; Mutate (PutDoc expense_doc);
              Advance 4500; Advance 5000; FetchDone true].

(** As [overlap], but the response arrives at 3000 ms, before the second
    timer fires. *)
Definition short_overlap : list event :=
  sign_up ++ [Mutate (PutDoc budget_doc); Advance 2000; DocsRead;
              Advance 2500; Mutate (PutDoc expense_doc);
              Advance 3000; FetchDone true; Advance 4500; DocsRead].

(** A well-formed sync body, and the file system after one, two and three
    requests with it, starting from an empty data directory. *)
Definition alex_body : json :=
  JObj [("accountId", JStr "alex");
        ("transactions", JArr [JObj [("_id", JStr "transaction_2")]]);
        ("budgets", JArr [])].

Definition sync_n (n : nat) : response * gmap string string :=
  Nat.iter n (fun st => post_api_sync st.2 "2024-01-03T00:00:00.000Z" alex_body)
    (res_json JNull, ∅).

(** A well-formed body whose account names a directory that does not
    exist. *)
Definition nested_body : json :=
  JObj [("accountId", JStr "a/b"); ("transactions", JArr [])].

(** ASCII lower-casing, and the UTF-16 code units of an ASCII string. *)
Definition lower_ascii (c : ascii) : ascii :=
  let n := Ascii.nat_of_ascii c in
  if (65 <=? n)%nat && (n <=? 90)%nat then Ascii.ascii_of_nat (n + 32) else c.

Fixpoint lower_string (s : string) : string :=
  match s with
  | EmptyString => EmptyString
  | String c s' => String (lower_ascii c) (lower_string s')
  end.

#[export] Instance strings : StringRuntime := {|
  toLowerCase := lower_string
|}.

Definition units (s : string) : list Z :=
  map (fun c => Z.of_nat (Ascii.nat_of_ascii c)) (String.list_ascii_of_string s).

Definition random16 : list byte :=
  [xff; x00; x12; xab; xcd; x34; xff; x9e; xff; x01; x02; x03; x04; x05; x06; x07].

(** The client signed in to the account of Alex, before and after a first
    document is stored. *)
Definition signed_in : system := run system_new sign_up.

Definition with_budget : system :=
  run system_new (sign_up ++ [Mutate (PutDoc budget_doc)]).

End Double.

(** ** Vocabulary of the properties *)

(** The range of an element of a [Uint8Array]. *)
Definition is_byte (z : Z) : Prop := 0 <= z < 256.

(** The accumulated OR of the XORs of two arrays, position by position. *)
Definition or_of_xors (computed stored : list Z) : Z :=
  foldl (fun r cs => Z.lor r (Z.lxor cs.1 cs.2)) 0 (zip computed stored).

(** What one row contributes to the result of [getAll], and to the console. *)
Definition readable `{SubtleCrypto} `{JSONCodec} (c : crypto_state) (row : doc)
  : option (list (string * json)) :=
  match doc_encryptedData row with
  | Some e => match decrypt c e with
              | inl data => Some (decrypted_record row data)
              | inr _ => None
              end
  | None => None
  end.

Definition unreadable `{SubtleCrypto} `{JSONCodec} (c : crypto_state) (row : doc)
  : option exn :=
  match doc_encryptedData row with
  | Some e => match decrypt c e with
              | inl _ => None
              | inr err => Some err
              end
  | None => None
  end.

(** At most one [syncToServer] body is suspended, and while one is, the
    flag [isSyncing] is up. *)
Definition exclusive `{SubtleCrypto} (s : system) : Prop :=
  (length (running s) <= 1)%nat
  /\ (running s <> [] -> isSyncing (db s) = true).

(** Edits made at given times: time passes until the edit, then the edit. *)
Definition burst_events (edits : list (Z * mutation)) : list event :=
  flat_map (fun tm => [Advance tm.1; Mutate tm.2]) edits.

(** The timer set at [t0] is the only one, it has not fired, and nothing
    else moved since the state [s0]. *)
Definition armed `{SubtleCrypto} (h : string) (t0 : Z) (s0 s : system) : Prop :=
  pendingSync (db s) = true /\ timers s = [t0 + 2000]
  /\ isSyncing (db s) = false /\ userDB (db s) = Some h
  /\ clock s < t0 + 2000
  /\ started s = started s0 /\ running s = running s0.

(** The flag [pendingSync] is up although no timer is set and no sync is
    running. *)
Definition starved `{SubtleCrypto} (s : system) : Prop :=
  pendingSync (db s) = true /\ timers s = [] /\ running s = [].

(** The array fields of a sync body. *)
Definition array_fields : list string :=
  ["transactions"; "recurring_bills"; "goals"; "budgets"; "reminders"].

(** A body whose [accountId] is missing or not a string, or which holds one
    of the array fields with a value that is not an array. *)
Definition malformed (body : json) : Prop :=
  get_field "accountId" body = None
  \/ is_string (get_field "accountId" body) = false
  \/ exists k v, k ∈ array_fields /\ get_field k body = Some v
                 /\ isArray (Some v) = false.

(** No readable bundle is stored at [dataFile]: there is no file, or its
    content does not parse, or it parses to [null]. *)
Definition no_bundle `{JSONCodec} (fs : gmap string string) (dataFile : string)
  : Prop :=
  fs !! dataFile = None
  \/ exists content, fs !! dataFile = Some content
       /\ (JSON_parse content = None \/ JSON_parse content = Some JNull).

(** A lower-case hexadecimal digit. *)
Definition is_hex (c : ascii) : bool :=
  existsb (Ascii.eqb c) (String.list_ascii_of_string "0123456789abcdef").

(** At most one timer is pending, and while one is, [pendingSync] is up. *)
Definition one_timer `{SubtleCrypto} (s : system) : Prop :=
  (length (timers s) <= 1)%nat
  /\ (timers s <> [] -> pendingSync (db s) = true).

(** All the documents of a batch. *)
Definition batch_docs (b : batch) : list doc :=
  transactions b ++ recurring_bills b ++ goals b ++ budgets b ++ reminders b.

(** The types of document that [syncToServer] sends. *)
Definition synced_types : list string :=
  ["transaction"; "bill"; "goal"; "budget"; "reminder"].

(** During a burst: the timer of the first edit is armed, and the database
    of the session holds [store]; key and requests are those of [s0]. *)
Definition loaded `{SubtleCrypto} (h : string) (t0 : Z) (s0 : system)
    (store : gmap string doc) (s : system) : Prop :=
  armed h t0 s0 s /\ default ∅ (stores s !! h) = store
  /\ crypto (db s) = crypto (db s0) /\ requests s = requests s0.

(** The status that [syncToServer] reports for the way its request ends. *)
Definition outcome_status (e : event) : option string :=
  match e with
  | FetchDone true => Some "synced"
  | FetchDone false => Some "error"
  | FetchFail => Some "offline"
  | _ => None
  end.

(** * Properties *)

Example double_parse : Double.parse (Double.print Double.amount42) = Some Double.amount42.
Proof. vm_compute. reflexivity. Qed.

(** ** Bytes and the 32-bit operators *)

Lemma byte_to_Z_is_byte (b : byte) : is_byte (byte_to_Z b).
Proof.
  unfold is_byte, byte_to_Z. pose proof (Byte.to_N_bounded b). lia.
Qed.

Lemma Array_from_bytes (u8 : list byte) : Forall is_byte (Array_from u8).
Proof.
  unfold Array_from. induction u8 as [|b u8 IH]; constructor; auto using byte_to_Z_is_byte.
Qed.

Lemma Z_to_byte_to_Z (b : byte) : Z_to_byte (byte_to_Z b) = b.
Proof.
  unfold Z_to_byte. pose proof (byte_to_Z_is_byte b) as Hb. unfold is_byte in Hb.
  rewrite Z.mod_small by lia. unfold byte_to_Z.
  rewrite N2Z.id, Byte.of_to_N. reflexivity.
Qed.

Lemma Uint8Array_Array_from (u8 : list byte) : Uint8Array (Array_from u8) = u8.
Proof.
  unfold Uint8Array, Array_from. induction u8 as [|b u8 IH]; simpl.
  - reflexivity.
  - rewrite Z_to_byte_to_Z, IH. reflexivity.
Qed.

Lemma toInt32_byte (z : Z) : is_byte z -> toInt32 z = z.
Proof.
  unfold is_byte, toInt32. intros Hz.
  rewrite Z.mod_small; lia.
Qed.

Lemma below_256_log2 (z : Z) : 0 < z -> (z < 256 <-> Z.log2 z < 8).
Proof. intros Hz. change 256 with (2 ^ 8). apply Z.log2_lt_pow2. exact Hz. Qed.

Lemma lor_is_byte (a b : Z) : is_byte a -> is_byte b -> is_byte (Z.lor a b).
Proof.
  unfold is_byte. intros Ha Hb.
  assert (0 <= Z.lor a b) as Hnn by (apply Z.lor_nonneg; lia).
  split; [exact Hnn|].
  destruct (Z.eq_dec (Z.lor a b) 0) as [->|Hne]; [lia|].
  apply below_256_log2; [lia|].
  rewrite Z.log2_lor by lia.
  destruct (Z.eq_dec a 0) as [->|Ha0]; destruct (Z.eq_dec b 0) as [->|Hb0];
    simpl Z.log2; try (apply Z.max_lub_lt); try lia;
    try (apply below_256_log2; lia).
Qed.

Lemma lxor_is_byte (a b : Z) : is_byte a -> is_byte b -> is_byte (Z.lxor a b).
Proof.
  unfold is_byte. intros Ha Hb.
  assert (0 <= Z.lxor a b) as Hnn by (apply Z.lxor_nonneg; lia).
  split; [exact Hnn|].
  destruct (Z.eq_dec (Z.lxor a b) 0) as [->|Hne]; [lia|].
  apply below_256_log2; [lia|].
  pose proof (Z.log2_lxor a b ltac:(lia) ltac:(lia)) as Hle.
  assert (Z.max (Z.log2 a) (Z.log2 b) < 8); [|lia].
  destruct (Z.eq_dec a 0) as [->|Ha0]; destruct (Z.eq_dec b 0) as [->|Hb0];
    simpl Z.log2; try (apply Z.max_lub_lt); try lia;
    try (apply below_256_log2; lia).
Qed.

Lemma js_xor_bytes (a b : Z) : is_byte a -> is_byte b -> js_xor a b = Z.lxor a b.
Proof. intros Ha Hb. unfold js_xor. rewrite !toInt32_byte by assumption. reflexivity. Qed.

Lemma js_or_bytes (a b : Z) : is_byte a -> is_byte b -> js_or a b = Z.lor a b.
Proof. intros Ha Hb. unfold js_or. rewrite !toInt32_byte by assumption. reflexivity. Qed.

(** ** SecureCrypto.verifyPassword *)

Section VerifyPassword.
Context `{SubtleCrypto}.

Lemma verify_loop_iterations (computed stored : list Z) (r : Z) (n : nat) :
  (verify_loop computed stored r n).2 = (n + length computed)%nat.
Proof.
  revert stored r n. induction computed as [|c computed IH]; intros stored r n; simpl.
  - lia.
  - rewrite IH. lia.
Qed.

Lemma verify_loop_result (computed stored : list Z) (r : Z) (n : nat) :
  length computed = length stored ->
  Forall is_byte computed -> Forall is_byte stored -> is_byte r ->
  (verify_loop computed stored r n).1
  = foldl (fun r cs => Z.lor r (Z.lxor cs.1 cs.2)) r (zip computed stored).
Proof.
  revert stored r n.
  induction computed as [|c computed IH]; intros [|s stored] r n Hlen Hc Hs Hr;
    simpl in *; try discriminate; [reflexivity|].
  inversion Hc; inversion Hs; subst.
  rewrite js_xor_bytes, js_or_bytes by auto using lxor_is_byte.
  apply IH; auto using lor_is_byte, lxor_is_byte.
Qed.

Lemma or_accumulate_zero (computed stored : list Z) (r : Z) :
  length computed = length stored ->
  foldl (fun r cs => Z.lor r (Z.lxor cs.1 cs.2)) r (zip computed stored) = 0
  <-> r = 0 /\ computed = stored.
Proof.
  revert stored r.
  induction computed as [|c computed IH]; intros [|s stored] r Hlen;
    simpl in *; try discriminate.
  - intuition.
  - rewrite IH by lia. rewrite Z.lor_eq_0_iff. split.
    + intros [[Hr Hx] ->]. apply Z.lxor_eq in Hx. subst. auto.
    + intros [Hr Heq]. inversion Heq; subst. rewrite Z.lxor_nilpotent. auto.
Qed.

(** C6.  [verifyPassword] answers [false] without entering its loop when
    the recomputed verifier and the stored one differ in length.  For a
    stored verifier of bytes of the same length it answers [true] exactly
    when the two arrays are equal; the answer is the test against zero of
    the OR of all the XORs, and the loop body runs once for every byte,
    wherever the first difference is. *)
Theorem verifyPassword_constant_time (passphrase : string) (salt : list byte)
    (storedVerifier : list Z) :
  let computed := createVerifier passphrase salt in
  (length computed <> length storedVerifier ->
     verifyPassword_run passphrase salt storedVerifier = (false, 0%nat))
  /\ (length computed = length storedVerifier ->
      Forall is_byte storedVerifier ->
      (verifyPassword passphrase salt storedVerifier = true
         <-> computed = storedVerifier)
      /\ verifyPassword_run passphrase salt storedVerifier
         = (Z.eqb (or_of_xors computed storedVerifier) 0, length computed)).
Proof.
  intros computed. split.
  - intros Hlen. unfold verifyPassword_run. fold computed.
    apply Nat.eqb_neq in Hlen. rewrite Hlen. reflexivity.
  - intros Hlen Hstored.
    assert (Forall is_byte computed) as Hcomputed by apply Array_from_bytes.
    assert (verifyPassword_run passphrase salt storedVerifier
            = (Z.eqb (or_of_xors computed storedVerifier) 0, length computed)) as Hrun.
    { unfold verifyPassword_run. fold computed.
      rewrite (proj2 (Nat.eqb_eq _ _) Hlen). simpl negb. cbv iota.
      pose proof (verify_loop_iterations computed storedVerifier 0 0) as Hit.
      pose proof (verify_loop_result computed storedVerifier 0 0 Hlen Hcomputed Hstored) as Hres.
      destruct (verify_loop computed storedVerifier 0 0) as [r it]. simpl in *.
      rewrite Hit, Hres; [reflexivity|unfold is_byte; lia]. }
    split; [|exact Hrun].
    unfold verifyPassword. rewrite Hrun. simpl. rewrite Z.eqb_eq.
    unfold or_of_xors. rewrite or_accumulate_zero by exact Hlen. intuition.
Qed.

End VerifyPassword.

Lemma verifyPassword_constant_time_witness :
  @verifyPassword_run Double.subtle "hunter2" [x01; x02]
    (@createVerifier Double.subtle "hunter2" [x01; x02]) = (true, 32%nat)
  /\ @verifyPassword_run Double.subtle "hunter2" [x01; x02]
    (@createVerifier Double.subtle "hunter3" [x01; x02]) = (false, 32%nat).
Proof.
  split.
  - rewrite (proj2 (proj2 (@verifyPassword_constant_time Double.subtle
                     "hunter2" [x01; x02]
                     (@createVerifier Double.subtle "hunter2" [x01; x02]))
                     ltac:(reflexivity) ltac:(apply Array_from_bytes))).
    vm_compute. reflexivity.
  - rewrite (proj2 (proj2 (@verifyPassword_constant_time Double.subtle
                     "hunter2" [x01; x02]
                     (@createVerifier Double.subtle "hunter3" [x01; x02]))
                     ltac:(reflexivity) ltac:(apply Array_from_bytes))).
    vm_compute. reflexivity.
Defined.

(** ** SecureCrypto.encrypt and SecureCrypto.decrypt *)

Lemma strip_prefix_app (p l : list byte) : Double.strip_prefix p (p ++ l) = Some l.
Proof.
  induction p as [|a p IH]; simpl.
  - reflexivity.
  - rewrite (Byte.byte_dec_lb (eq_refl a)). exact IH.
Qed.

Lemma Double_subtle_laws : @SubtleCryptoLaws Double.subtle.
Proof.
  constructor. intros k iv pt. simpl.
  rewrite app_assoc. apply strip_prefix_app.
Qed.

Lemma Double_codec_laws : @JSONCodecLaws Double.codec.
Proof.
  constructor. intros s. simpl. apply String.string_of_list_byte_of_string.
Qed.

Section Envelope.
Context `{SubtleCrypto} `{!SubtleCryptoLaws} `{JSONCodec} `{!JSONCodecLaws}.

(** C1.  With a key in place, [encrypt] returns an envelope for every
    record, and [decrypt] of that envelope under the same key returns the
    record, provided the record is JSON-serializable. *)
Theorem decrypt_encrypt_roundtrip (c : crypto_state) (k : CryptoKey)
    (fresh_iv : list byte) (now : Z) (R : json) :
  key c = Some k ->
  serializable R ->
  exists e, encrypt c fresh_iv now R = inl e /\ decrypt c e = inl R.
Proof.
  intros Hkey HR. unfold encrypt. rewrite Hkey.
  eexists. split; [reflexivity|].
  unfold decrypt. rewrite Hkey. simpl.
  rewrite !Uint8Array_Array_from, aes_gcm_decrypt_encrypt.
  rewrite TextDecoder_decode_encode, HR. reflexivity.
Qed.

End Envelope.

Lemma decrypt_encrypt_roundtrip_witness :
  exists e, @encrypt Double.subtle Double.codec Double.session [x07; x08]
              1700000000000 Double.amount42 = inl e
            /\ @decrypt Double.subtle Double.codec Double.session e
               = inl Double.amount42.
Proof.
  apply (@decrypt_encrypt_roundtrip Double.subtle Double_subtle_laws
           Double.codec Double_codec_laws Double.session
           (@deriveKey Double.subtle "hunter2" [x01])).
  - reflexivity.
  - vm_compute. reflexivity.
Defined.

(** ** Database.signIn *)

Section SignIn.
Context `{SubtleCrypto} `{JSONCodec}.

Lemma signIn_cases (d : database) (accountId passphrase : string) :
  match accountsDB d !! accountId with
  | None => signIn d accountId passphrase = inr (PouchError 404 "not_found")
  | Some a =>
      if verifyPassword passphrase (Uint8Array (acct_salt a)) (acct_verifier a)
      then exists d', signIn d accountId passphrase = inl (a, d')
      else signIn d accountId passphrase = inr (Error "Invalid passphrase")
  end.
Proof.
  unfold signIn, pouch_get.
  destruct (accountsDB d !! accountId) as [a|]; simpl; [|reflexivity].
  destruct (verifyPassword _ _ _); simpl; eauto.
Qed.

(** C2, as the code has it.  [signIn] throws [Error('Invalid passphrase')]
    exactly when the account exists and the passphrase does not verify; for
    an [accountId] that the accounts database does not hold, the 404
    rejection of [accountsDB.get] goes through instead.  These are the only
    two failures, and [App.login] shows the same text for both. *)
Theorem signIn_failures (d : database) (accountId passphrase : string) :
  (signIn d accountId passphrase = inr (Error "Invalid passphrase")
     <-> exists a, accountsDB d !! accountId = Some a
                   /\ verifyPassword passphrase (Uint8Array (acct_salt a))
                        (acct_verifier a) = false)
  /\ (signIn d accountId passphrase = inr (PouchError 404 "not_found")
      <-> accountsDB d !! accountId = None)
  /\ (forall e, signIn d accountId passphrase = inr e ->
        (e = Error "Invalid passphrase" \/ e = PouchError 404 "not_found")
        /\ App_login d accountId passphrase = (Some "Invalid passphrase", d)).
Proof.
  pose proof (signIn_cases d accountId passphrase) as Hc.
  unfold App_login.
  destruct (accountsDB d !! accountId) as [a|] eqn:Hget.
  - destruct (verifyPassword _ _ _) eqn:Hv.
    + destruct Hc as [d' Hc]. rewrite Hc.
      split; [|split].
      * split; [discriminate|]. intros (a' & Ha' & Hv'). congruence.
      * split; discriminate.
      * intros e' He'. discriminate.
    + rewrite Hc. split; [|split].
      * split; [eauto|reflexivity].
      * split; discriminate.
      * intros e' He'. split; [left; congruence|reflexivity].
  - rewrite Hc. split; [|split].
    + split; [discriminate|]. intros (a' & Ha' & _). discriminate.
    + split; reflexivity.
    + intros e' He'. split; [right; congruence|reflexivity].
Qed.

End SignIn.

(** C2 as stated fails: signing in to an id that does not exist does not
    throw the error that a wrong passphrase throws. *)
Lemma signIn_unknown_account_counterexample :
  @signIn Double.subtle Double.alex_db Double.alex_id "wrong-pass"
  = inr (Error "Invalid passphrase")
  /\ @signIn Double.subtle Double.alex_db "00000000-0000-4000-8000-000000000000"
       "CorrectHorseBattery9!"
     = inr (PouchError 404 "not_found")
  /\ ~ (forall (d : @database Double.subtle) (accountId passphrase : string) (e : exn),
          @signIn Double.subtle d accountId passphrase = inr e ->
          e = Error "Invalid passphrase").
Proof.
  assert (@signIn Double.subtle Double.alex_db "00000000-0000-4000-8000-000000000000"
            "CorrectHorseBattery9!" = inr (PouchError 404 "not_found")) as Hghost
    by (vm_compute; reflexivity).
  split; [vm_compute; reflexivity|]. split; [exact Hghost|].
  intros Hall. specialize (Hall _ _ _ _ Hghost). discriminate.
Qed.

Lemma signIn_failures_witness :
  (exists d', @signIn Double.subtle Double.alex_db Double.alex_id
                "CorrectHorseBattery9!"
              = inl (Build_account Double.alex_id "Alex" [10; 11; 12]
                       (@createVerifier Double.subtle "CorrectHorseBattery9!"
                          [x0a; x0b; x0c])
                       "2024-01-01T00:00:00.000Z", d'))
  /\ @App_login Double.subtle Double.alex_db Double.alex_id "wrong-pass"
     = (Some "Invalid passphrase", Double.alex_db).
Proof.
  split.
  - vm_compute. eexists. reflexivity.
  - apply (proj2 (proj2 (@signIn_failures Double.subtle Double.alex_db
                           Double.alex_id "wrong-pass"))
             (Error "Invalid passphrase")).
    vm_compute. reflexivity.
Defined.

(** ** Database.getAll and Database.getByType *)

Section GetAll.
Context `{SubtleCrypto} `{JSONCodec}.

Lemma getAll_loop_spec (c : crypto_state) (rows : list doc)
    (decrypted : list (list (string * json))) (console : list exn) :
  getAll_loop c rows decrypted console
  = (decrypted ++ omap (readable c) rows, console ++ omap (unreadable c) rows).
Proof.
  revert decrypted console.
  induction rows as [|row rows IH]; intros decrypted console; simpl.
  - rewrite !app_nil_r. reflexivity.
  - unfold readable, unreadable.
    destruct (doc_encryptedData row) as [e|]; [|apply IH].
    destruct (decrypt c e) as [data|err]; rewrite IH; simpl.
    + rewrite <- app_assoc. reflexivity.
    + rewrite <- app_assoc. reflexivity.
Qed.

Lemma type_is_spec (type : string) (r : list (string * json)) :
  type_is type r = true <-> assoc "type" r = Some (JStr type).
Proof.
  unfold type_is.
  destruct (assoc "type" r) as [[| | |t| |]|]; try (split; [discriminate|congruence]).
  rewrite String.eqb_eq. split; congruence.
Qed.

(** C8.  In a session, [getAll] returns, in the order of the rows, the
    record of every row whose envelope decrypts, and logs the error of every
    row whose envelope does not; a row that fails changes nothing for the
    rows around it.  [getByType] keeps the records of [getAll] whose [type]
    field is the requested one. *)
Theorem getAll_skips_unreadable (d : database)
    (stores : gmap string (gmap string doc)) (h : string) :
  userDB d = Some h ->
  let rows := allDocs (default ∅ (stores !! h)) in
  getAll d stores
  = (omap (readable (crypto d)) rows, omap (unreadable (crypto d)) rows)
  /\ (forall before bad after,
        rows = before ++ bad :: after -> readable (crypto d) bad = None ->
        (getAll d stores).1
        = omap (readable (crypto d)) before ++ omap (readable (crypto d)) after)
  /\ (forall type,
        getByType d stores type
        = (filter (fun r => type_is type r = true) (getAll d stores).1,
           (getAll d stores).2)
        /\ forall r, r ∈ (getByType d stores type).1
                     <-> r ∈ (getAll d stores).1
                         /\ assoc "type" r = Some (JStr type)).
Proof.
  intros Hh rows.
  assert (getAll d stores
          = (omap (readable (crypto d)) rows, omap (unreadable (crypto d)) rows)) as Hall.
  { unfold getAll. rewrite Hh. fold rows. rewrite getAll_loop_spec. reflexivity. }
  split; [exact Hall|]. split.
  - intros before bad after Hrows Hbad. rewrite Hall. simpl.
    rewrite Hrows, omap_app. simpl. rewrite Hbad. reflexivity.
  - intros type.
    assert (getByType d stores type
            = (filter (fun r => type_is type r = true) (getAll d stores).1,
               (getAll d stores).2)) as Hby.
    { unfold getByType. destruct (getAll d stores) as [all console]. reflexivity. }
    split; [exact Hby|]. intros r. rewrite Hby. simpl.
    rewrite list_elem_of_filter, type_is_spec. tauto.
Qed.

End GetAll.

Lemma getAll_skips_unreadable_witness :
  (@getAll Double.subtle Double.codec Double.alex_session Double.alex_store).1
  = [ [("_id", JStr "budget_1"); ("type", JStr "budget");
       ("createdAt", JStr "2024-01-02T00:00:00.000Z");
       ("category", JStr "Food"); ("amount", JNum 500)];
      [("_id", JStr "transaction_2"); ("type", JStr "expense");
       ("createdAt", JStr "2024-01-02T00:00:00.000Z"); ("amount", JNum 42)] ]
  /\ (@getAll Double.subtle Double.codec Double.alex_session Double.alex_store).2
     = [OperationError; Error "Unsupported format"].
Proof.
  rewrite (proj1 (@getAll_skips_unreadable Double.subtle Double.codec
                    Double.alex_session Double.alex_store
                    (user_db_name "alex") eq_refl)).
  vm_compute. split; reflexivity.
Defined.

(** ** The sync engine: at most one sync at a time *)

Section OneInFlight.
Context `{SubtleCrypto} `{JSONCodec}.

Lemma take_task_rest (p : sync_task -> bool) (l : list sync_task)
    (t : sync_task) (rest : list sync_task) :
  (length l <= 1)%nat -> take_task p l = Some (t, rest) -> rest = [].
Proof.
  destruct l as [|t0 [|t1 l]]; simpl; intros Hlen Htake.
  - discriminate.
  - destruct (p t0); [congruence|discriminate].
  - lia.
Qed.

Lemma take_task_nonempty (p : sync_task -> bool) (l : list sync_task)
    (t : sync_task) (rest : list sync_task) :
  take_task p l = Some (t, rest) -> l <> [].
Proof. destruct l; [discriminate|congruence]. Qed.

Lemma exclusive_new : exclusive system_new.
Proof. split; simpl; [lia|congruence]. Qed.

Lemma exclusive_scheduleSync (s : system) : exclusive s -> exclusive (scheduleSync s).
Proof.
  unfold scheduleSync. destruct (pendingSync (db s)); [auto|].
  intros [Hlen Hflag]. split; simpl; auto.
Qed.

Lemma exclusive_syncToServer (s : system) : exclusive s -> exclusive (syncToServer s).
Proof.
  unfold syncToServer. intros [Hlen Hflag].
  destruct (isSyncing (db s)) eqn:Hs; [split; auto|].
  destruct (userDB (db s)) as [h|];
    [|split; [exact Hlen|intros Hr; rewrite Hs; exact (Hflag Hr)]].
  assert (running s = []) as Hnil.
  { destruct (running s) as [|t l]; [reflexivity|].
    assert (false = true) by (apply Hflag; discriminate). discriminate. }
  split; simpl; rewrite Hnil; simpl; [lia|reflexivity].
Qed.

Lemma syncToServer_while_running (s : system) :
  exclusive s -> running s <> [] -> syncToServer s = s.
Proof.
  intros [_ Hflag] Hrun. unfold syncToServer. rewrite (Hflag Hrun). reflexivity.
Qed.

Lemma exclusive_mutate (m : mutation) (s : system) : exclusive s -> exclusive (mutate m s).
Proof.
  unfold mutate. intros Hs. destruct (userDB (db s)); [|exact Hs].
  apply exclusive_scheduleSync. exact Hs.
Qed.

Lemma exclusive_fire (s : system) (due : Z) : exclusive s -> exclusive (fire s due).
Proof. intros Hs. unfold fire. apply exclusive_syncToServer. exact Hs. Qed.

Lemma exclusive_fires (dues : list Z) (s : system) :
  exclusive s -> exclusive (foldl fire s dues).
Proof.
  revert s. induction dues as [|d dues IH]; intros s Hs; simpl; [exact Hs|].
  apply IH, exclusive_fire, Hs.
Qed.

Lemma exclusive_advance (t : Z) (s : system) : exclusive s -> exclusive (advance t s).
Proof.
  intros Hs. unfold advance.
  match goal with |- context [foldl fire ?s0 ?l] =>
    pose proof (exclusive_fires l s0 Hs) as Hf end.
  exact Hf.
Qed.

Lemma exclusive_finish (status : string) (t : sync_task) (rest : list sync_task)
    (p : sync_task -> bool) (s : system) :
  exclusive s -> take_task p (running s) = Some (t, rest) ->
  exclusive (finish status rest s).
Proof.
  intros [Hlen _] Htake. apply take_task_rest in Htake; [|exact Hlen]. subst rest.
  split; simpl; [lia|congruence].
Qed.

Lemma exclusive_docs_read (s : system) : exclusive s -> exclusive (docs_read s).
Proof.
  intros Hs. unfold docs_read.
  destruct (take_task reading (running s)) as [[[h|] rest]|] eqn:Htake; try exact Hs.
  destruct Hs as [Hlen Hflag].
  pose proof (take_task_nonempty _ _ _ _ Htake) as Hne.
  apply take_task_rest in Htake; [|exact Hlen]. subst rest.
  split; simpl; auto.
Qed.

Lemma exclusive_step (s : system) (e : event) : exclusive s -> exclusive (step s e).
Proof.
  intros Hs. destruct e as [m|t| | |ok| |uuid fs now name p|a p|]; simpl.
  - apply exclusive_mutate, Hs.
  - apply exclusive_advance, Hs.
  - apply exclusive_docs_read, Hs.
  - unfold docs_fail.
    destruct (take_task reading (running s)) as [[t rest]|] eqn:Htake; [|exact Hs].
    eapply exclusive_finish; eauto.
  - unfold fetch_done.
    destruct (take_task fetching (running s)) as [[t rest]|] eqn:Htake; [|exact Hs].
    eapply exclusive_finish; eauto.
  - unfold fetch_fail.
    destruct (take_task fetching (running s)) as [[t rest]|] eqn:Htake; [|exact Hs].
    eapply exclusive_finish; eauto.
  - destruct (createAccount (db s) uuid fs now name p) as [[u d]|err] eqn:Hc; [|exact Hs].
    unfold createAccount in Hc.
    destruct (pouch_put_new _ _ _) as [a|]; simpl in Hc; [|discriminate].
    inversion Hc; subst. exact Hs.
  - destruct (signIn (db s) a p) as [[acct d]|err] eqn:Hc; [|exact Hs].
    unfold signIn in Hc.
    destruct (pouch_get _ _) as [acct'|]; simpl in Hc; [|discriminate].
    destruct (negb _); [discriminate|]. inversion Hc; subst. exact Hs.
  - exact Hs.
Qed.

Lemma exclusive_run (events : list event) (s : system) :
  exclusive s -> exclusive (run s events).
Proof.
  revert s. induction events as [|e events IH]; intros s Hs; simpl; [exact Hs|].
  apply IH, exclusive_step, Hs.
Qed.

(** C4.  In every state that a [Database] object reaches from its
    construction, under any sequence of events, at most one body of
    [syncToServer] is suspended, so at most one sync request is on the
    network; and a call of [syncToServer] made while one is suspended
    returns at its guard and changes nothing. *)
Theorem at_most_one_sync_in_flight (events : list event) :
  (in_flight (run system_new events) <= 1)%nat
  /\ (length (running (run system_new events)) <= 1)%nat
  /\ (running (run system_new events) <> [] ->
      syncToServer (run system_new events) = run system_new events).
Proof.
  pose proof (exclusive_run events system_new exclusive_new) as Hex.
  split; [|split].
  - unfold in_flight. destruct Hex as [Hlen _].
    pose proof (length_filter (fun t => fetching t = true)
                  (running (run system_new events))). lia.
  - apply Hex.
  - apply syncToServer_while_running, Hex.
Qed.

End OneInFlight.

(** ** The sync engine: when the timer fires *)

Section Debounce.
Context `{SubtleCrypto} `{JSONCodec}.

Lemma scheduleSync_pending (s : system) :
  pendingSync (db s) = true -> scheduleSync s = s.
Proof. intros Hp. unfold scheduleSync. rewrite Hp. reflexivity. Qed.

Lemma mutate_pending_timers (m : mutation) (s : system) :
  pendingSync (db s) = true ->
  timers (mutate m s) = timers s /\ started (mutate m s) = started s
  /\ db (mutate m s) = db s /\ clock (mutate m s) = clock s
  /\ running (mutate m s) = running s.
Proof.
  intros Hp. unfold mutate. destruct (userDB (db s)); [|auto].
  rewrite scheduleSync_pending by exact Hp. simpl. auto.
Qed.

Lemma armed_first (h : string) (m : mutation) (s : system) :
  userDB (db s) = Some h -> isSyncing (db s) = false ->
  pendingSync (db s) = false -> timers s = [] ->
  armed h (clock s) s (mutate m s).
Proof.
  intros Hu Hs Hp Ht. unfold armed, mutate, scheduleSync. rewrite Hu. simpl.
  rewrite Hp, Hs. simpl. rewrite Ht, Hu. simpl.
  split; [reflexivity|]. split; [reflexivity|]. split; [reflexivity|].
  split; [reflexivity|]. split; [lia|]. split; reflexivity.
Qed.

Lemma advance_before_due (h : string) (t0 t : Z) (s0 s : system) :
  armed h t0 s0 s -> t < t0 + 2000 -> armed h t0 s0 (advance t s).
Proof.
  intros (Hp & Ht & Hs & Hu & Hc & Hst & Hr) Hlt. unfold armed, advance.
  rewrite Ht.
  rewrite (filter_cons_False (fun d => d <= t)), filter_nil by lia.
  rewrite (filter_cons_True (fun d => ~ d <= t)), filter_nil by lia. simpl.
  split; [exact Hp|]. split; [reflexivity|]. split; [exact Hs|].
  split; [exact Hu|]. split; [lia|]. split; assumption.
Qed.

Lemma armed_edit (h : string) (t0 : Z) (m : mutation) (s0 s : system) :
  armed h t0 s0 s -> armed h t0 s0 (mutate m s).
Proof.
  intros (Hp & Ht & Hs & Hu & Hc & Hst & Hr).
  destruct (mutate_pending_timers m s Hp) as (Ht' & Hst' & Hdb & Hc' & Hr').
  unfold armed. rewrite Ht', Hst', Hdb, Hc', Hr'. auto 10.
Qed.

Lemma armed_burst (h : string) (t0 : Z) (edits : list (Z * mutation)) (s0 s : system) :
  armed h t0 s0 s -> Forall (fun tm => tm.1 < t0 + 2000) edits ->
  armed h t0 s0 (run s (burst_events edits)).
Proof.
  revert s. induction edits as [|[t m] edits IH]; intros s Ha Hall; simpl; [exact Ha|].
  inversion Hall as [|? ? Hlt Hall']; subst. simpl in Hlt.
  apply IH; [|exact Hall'].
  apply armed_edit, advance_before_due; auto.
Qed.

Lemma advance_past_due (h : string) (t0 T : Z) (s0 s : system) :
  armed h t0 s0 s -> t0 + 2000 <= T ->
  started (advance T s) = started s0 ++ [t0 + 2000]
  /\ timers (advance T s) = []
  /\ running (advance T s) = running s0 ++ [AwaitAllDocs h].
Proof.
  intros (Hp & Ht & Hs & Hu & Hc & Hst & Hr) Hle. unfold advance.
  rewrite Ht.
  rewrite (filter_cons_True (fun d => d <= T)), filter_nil by lia.
  rewrite (filter_cons_False (fun d => ~ d <= T)), filter_nil by lia. simpl.
  unfold fire, syncToServer. simpl. rewrite Hs, Hu. simpl.
  rewrite Hst, Hr. replace (Z.max (clock s) (t0 + 2000)) with (t0 + 2000) by lia.
  auto.
Qed.

(** C3, as the code has it.  An edit that arrives while a sync is pending
    returns from [scheduleSync] at its guard: it sets no timer and moves
    none.  So when an edit reaches an idle session at time [t0] and more
    edits follow within the 2 seconds, [syncToServer] starts once, at
    [t0 + 2000], 2 seconds after the first edit of the burst. *)
Theorem sync_starts_after_first_edit (s : system) (h : string) (m0 : mutation)
    (edits : list (Z * mutation)) (T : Z) :
  userDB (db s) = Some h -> isSyncing (db s) = false ->
  pendingSync (db s) = false -> timers s = [] ->
  Forall (fun tm => tm.1 < clock s + 2000) edits ->
  clock s + 2000 <= T ->
  (forall m s', pendingSync (db s') = true -> timers (mutate m s') = timers s')
  /\ started (run s (Mutate m0 :: burst_events edits ++ [Advance T]))
     = started s ++ [clock s + 2000]
  /\ timers (run s (Mutate m0 :: burst_events edits ++ [Advance T])) = [].
Proof.
  intros Hu Hs Hp Ht Hall HT. split.
  - intros m s' Hp'. apply (mutate_pending_timers m s' Hp').
  - unfold run. simpl. rewrite foldl_app. simpl.
    pose proof (armed_burst h (clock s) edits s (mutate m0 s)
                  (armed_first h m0 s Hu Hs Hp Ht) Hall) as Ha.
    destruct (advance_past_due h (clock s) T s _ Ha HT) as (H1 & H2 & _).
    split; assumption.
Qed.

End Debounce.

(** C3 as stated fails: with edits at 0 ms and at 1500 ms, the sync starts
    at 2000 ms, not 2 seconds after the last edit. *)
Lemma debounce_not_restarted_counterexample :
  started (@run Double.subtle (@system_new Double.subtle) Double.burst) = [2000]
  /\ ~ started (@run Double.subtle (@system_new Double.subtle) Double.burst)
       = [1500 + 2000].
Proof.
  assert (started (@run Double.subtle (@system_new Double.subtle) Double.burst)
          = [2000]) as Hs by (vm_compute; reflexivity).
  split; [exact Hs|]. rewrite Hs. discriminate.
Qed.

Lemma sync_starts_after_first_edit_witness :
  started (@run Double.subtle
             (@run Double.subtle (@system_new Double.subtle) Double.sign_up)
             (Mutate (PutDoc Double.budget_doc)
                :: burst_events [(1500, PutDoc Double.expense_doc);
                                 (1900, RemoveDoc "budget_1")]
                ++ [Advance 10000]))
  = [2000].
Proof.
  apply (proj1 (proj2 (@sync_starts_after_first_edit Double.subtle
           (@run Double.subtle (@system_new Double.subtle) Double.sign_up)
           (user_db_name Double.alex_id) (PutDoc Double.budget_doc)
           [(1500, PutDoc Double.expense_doc); (1900, RemoveDoc "budget_1")]
           10000
           ltac:(vm_compute; reflexivity) ltac:(vm_compute; reflexivity)
           ltac:(vm_compute; reflexivity) ltac:(vm_compute; reflexivity)
           ltac:(repeat constructor) ltac:(vm_compute; discriminate)))).
Defined.

(** ** The sync engine: an edit made while a sync is running *)

Section Starvation.
Context `{SubtleCrypto} `{JSONCodec}.

Lemma starved_step (s : system) (e : event) :
  starved s ->
  starved (step s e) /\ requests (step s e) = requests s
  /\ started (step s e) = started s.
Proof.
  intros (Hp & Ht & Hr). unfold starved.
  destruct e as [m|t| | |ok| |uuid fs now name p|a p|]; simpl.
  - destruct (mutate_pending_timers m s Hp) as (Ht' & Hst' & Hdb & Hc' & Hr').
    rewrite Ht', Hst', Hdb, Hr'.
    assert (requests (mutate m s) = requests s) as ->; [|auto].
    unfold mutate. destruct (userDB (db s)); [|reflexivity].
    rewrite scheduleSync_pending by exact Hp. reflexivity.
  - unfold advance. rewrite Ht. rewrite !filter_nil. simpl. auto.
  - unfold docs_read. rewrite Hr. simpl. auto.
  - unfold docs_fail. rewrite Hr. simpl. auto.
  - unfold fetch_done. rewrite Hr. simpl. auto.
  - unfold fetch_fail. rewrite Hr. simpl. auto.
  - destruct (createAccount (db s) uuid fs now name p) as [[u d]|err] eqn:Hc; [|auto].
    unfold createAccount in Hc.
    destruct (pouch_put_new _ _ _) as [acc|]; simpl in Hc; [|discriminate].
    inversion Hc; subst. simpl. auto.
  - destruct (signIn (db s) a p) as [[acct d]|err] eqn:Hc; [|auto].
    unfold signIn in Hc.
    destruct (pouch_get _ _) as [acct'|]; simpl in Hc; [|discriminate].
    destruct (negb _); [discriminate|]. inversion Hc; subst. simpl. auto.
  - auto.
Qed.

Lemma starved_run (events : list event) (s : system) :
  starved s ->
  starved (run s events) /\ requests (run s events) = requests s
  /\ started (run s events) = started s.
Proof.
  revert s. induction events as [|e events IH]; intros s Hs; simpl; [auto|].
  destruct (starved_step s e Hs) as (Hs' & Hreq & Hst).
  destruct (IH _ Hs') as (Hs'' & Hreq' & Hst').
  split; [exact Hs''|]. split; congruence.
Qed.

End Starvation.

(** When the response arrives before the timer of the edit fires, the edit
    is sent by a second sync. *)
Example edit_during_short_sync_is_sent :
  map (fun b => map doc_id (transactions b))
    (requests (@run Double.subtle (@system_new Double.subtle) Double.short_overlap))
  = [[]; ["transaction_2"]]
  /\ started (@run Double.subtle (@system_new Double.subtle) Double.short_overlap)
     = [2000; 4500].
Proof. vm_compute. split; reflexivity. Qed.

(** C5 against the code.  An edit is saved at 2500 ms, while the request of
    the sync that started at 2000 ms is on the network.  Its timer fires at
    4500 ms, finds [isSyncing] up and returns; the response arrives at
    5000 ms.  The one request sent does not hold the edited document, the
    local database does, [pendingSync] stays up with no timer set, and from
    there no sequence of events, edits included, starts a sync or sends a
    request again. *)
Theorem edit_during_sync_never_sent :
  map (fun b => map doc_id (transactions b))
    (requests (@run Double.subtle (@system_new Double.subtle) Double.overlap))
  = [[]]
  /\ (stores (@run Double.subtle (@system_new Double.subtle) Double.overlap)
        !! user_db_name Double.alex_id) ≫= (fun store => store !! "transaction_2")
     = Some Double.expense_doc
  /\ started (@run Double.subtle (@system_new Double.subtle) Double.overlap) = [2000]
  /\ @starved Double.subtle
       (@run Double.subtle (@system_new Double.subtle) Double.overlap)
  /\ forall events,
       requests (@run Double.subtle
                   (@run Double.subtle (@system_new Double.subtle) Double.overlap)
                   events)
       = requests (@run Double.subtle (@system_new Double.subtle) Double.overlap)
       /\ started (@run Double.subtle
                     (@run Double.subtle (@system_new Double.subtle) Double.overlap)
                     events)
          = [2000].
Proof.
  assert (@starved Double.subtle
            (@run Double.subtle (@system_new Double.subtle) Double.overlap)) as Hst
    by (vm_compute; auto).
  assert (started (@run Double.subtle (@system_new Double.subtle) Double.overlap)
          = [2000]) as Hstarted by (vm_compute; reflexivity).
  split; [vm_compute; reflexivity|]. split; [vm_compute; reflexivity|].
  split; [exact Hstarted|]. split; [exact Hst|].
  intros events.
  destruct (@starved_run Double.subtle events _ Hst) as (_ & Hreq & Hs).
  split; [exact Hreq|]. rewrite Hs. exact Hstarted.
Qed.

(** ** The sync route: validation *)

Section Validation.
Context `{JSONCodec} `{NodeRuntime}.

Lemma check_arrays_status (entries : list (string * option json)) (r : response) :
  check_arrays entries = Some r -> res_status r = 400.
Proof.
  induction entries as [|[k v] entries IH]; simpl; [discriminate|].
  destruct (bool_decide (v <> None) && negb (isArray v)); [|exact IH].
  intros Hr. inversion Hr. reflexivity.
Qed.

Lemma check_arrays_rejects (entries : list (string * option json)) (k : string)
    (v : json) :
  (k, Some v) ∈ entries -> isArray (Some v) = false ->
  exists r, check_arrays entries = Some r.
Proof.
  intros Hin Hv. induction entries as [|[k' v'] entries IH]; simpl.
  - inversion Hin.
  - destruct (bool_decide (v' <> None) && negb (isArray v')) eqn:Hb; [eauto|].
    apply IH. apply elem_of_cons in Hin as [Heq|Hin]; [|exact Hin].
    inversion Heq; subst. rewrite Hv in Hb.
    rewrite bool_decide_eq_true_2 in Hb by discriminate. discriminate.
Qed.

Lemma validateSyncData_status (body : json) (r : response) :
  validateSyncData body = Some r -> res_status r = 400.
Proof.
  unfold validateSyncData.
  destruct (negb (truthy _) || negb (is_string _)).
  - intros Hr. inversion Hr. reflexivity.
  - apply check_arrays_status.
Qed.

Lemma validateSyncData_rejects (body : json) :
  malformed body -> exists r, validateSyncData body = Some r.
Proof.
  unfold malformed, validateSyncData. intros Hbad.
  destruct (negb (truthy (get_field "accountId" body))
            || negb (is_string (get_field "accountId" body))) eqn:Hacc; [eauto|].
  apply orb_false_elim in Hacc as [Ht Hstr].
  apply negb_false_iff in Ht, Hstr.
  destruct Hbad as [Hnone|[Hns|(k & v & Hk & Hget & Harr)]].
  - rewrite Hnone in Ht. discriminate.
  - congruence.
  - apply (check_arrays_rejects _ k v); [|exact Harr].
    unfold array_fields in Hk. rewrite <- Hget.
    repeat (apply elem_of_cons in Hk as [->|Hk]; [set_solver|]).
    inversion Hk.
Qed.

(** C9.  A request to the sync route whose body has no [accountId], or one
    that is not a string, or holds one of the five array fields with a value
    that is not an array, is answered with status 400 by the validation
    middleware, and the file system, hence every stored bundle, is as it was
    before. *)
Theorem malformed_sync_rejected (fs : gmap string string) (now : string)
    (body : json) :
  malformed body ->
  res_status (post_api_sync fs now body).1 = 400
  /\ (post_api_sync fs now body).2 = fs.
Proof.
  intros Hbad. destruct (validateSyncData_rejects body Hbad) as [r Hr].
  unfold post_api_sync. rewrite Hr. simpl.
  split; [exact (validateSyncData_status body r Hr)|reflexivity].
Qed.

End Validation.

Lemma malformed_sync_rejected_witness :
  res_status (@post_api_sync Double.codec Double.node
                {[ "secure-data/alex.json" := "{}" ]} "2024-01-03T00:00:00.000Z"
                (JObj [("transactions", JArr [])])).1 = 400
  /\ res_status (@post_api_sync Double.codec Double.node
                   {[ "secure-data/alex.json" := "{}" ]} "2024-01-03T00:00:00.000Z"
                   (JObj [("accountId", JStr "alex"); ("goals", JNull)])).1 = 400.
Proof.
  split.
  - apply (@malformed_sync_rejected Double.codec Double.node). left. reflexivity.
  - apply (@malformed_sync_rejected Double.codec Double.node).
    right. right. exists "goals", JNull. split; [|split; reflexivity].
    unfold array_fields. set_solver.
Defined.

(** ** The sync route: the runs of the handler *)

Section SyncRun.
Context `{JSONCodec} `{NodeRuntime}.

Lemma length_append (s t : string) :
  String.length (s +:+ t) = (String.length s + String.length t)%nat.
Proof. induction s as [|c s IH]; simpl; [reflexivity|]. rewrite IH. reflexivity. Qed.

Lemma append_tmp_neq (f : string) : f +:+ ".tmp" <> f.
Proof.
  intros Heq. apply (f_equal String.length) in Heq.
  rewrite length_append in Heq. simpl in Heq. lia.
Qed.

Lemma substring_all (s : string) : String.substring 0 (String.length s) s = s.
Proof. induction s as [|c s IH]; simpl; [reflexivity|]. rewrite IH. reflexivity. Qed.

Lemma writeFileSync_states_other (path content : string) (fs st : gmap string string)
    (other : string) :
  st ∈ writeFileSync_states path content fs -> other <> path ->
  st !! other = fs !! other.
Proof.
  unfold writeFileSync_states. intros Hin Hne.
  apply list_elem_of_fmap in Hin as (n & -> & _).
  apply lookup_insert_ne. congruence.
Qed.

Lemma writeFileSync_states_last (path content : string) (fs : gmap string string) :
  last (writeFileSync_states path content fs) = Some (<[path := content]> fs).
Proof.
  unfold writeFileSync_states.
  rewrite seq_S, map_app. simpl. rewrite last_snoc, substring_all. reflexivity.
Qed.

Lemma left_by_other (fs : gmap string string) (states : list (gmap string string))
    (path content other : string) :
  (forall st, st ∈ states -> st ∈ writeFileSync_states path content fs) ->
  other <> path ->
  left_by fs states !! other = fs !! other.
Proof.
  intros Hsub Hne. unfold left_by.
  destruct (last states) as [st|] eqn:Hlast; [|reflexivity].
  simpl. apply last_Some_elem_of in Hlast.
  eapply writeFileSync_states_other; eauto.
Qed.

Lemma dataFile_of_account (body : json) (a : string) :
  get_field "accountId" body = Some (JStr a) ->
  dataFile_of body = path_join DB_DIR (a +:+ ".json").
Proof. intros Ha. unfold dataFile_of. rewrite Ha. reflexivity. Qed.

Lemma round_to_double_exact (z : Z) :
  - 2 ^ 53 <= z <= 2 ^ 53 -> round_to_double z = z.
Proof.
  intros Hz. unfold round_to_double.
  destruct (Z.ltb_spec (Z.abs z) (2 ^ 53)) as [|Hge]; [reflexivity|].
  assert (z = 2 ^ 53 \/ z = - 2 ^ 53) as [-> | ->] by lia; vm_compute; reflexivity.
Qed.

(** The run of the handler when both writes go through. *)
Lemma sync_handler_io_ok (fs : gmap string string) (now : string) (body : json) :
  write_error (dataFile_of body +:+ ".tmp") = None ->
  rename_error (dataFile_of body +:+ ".tmp") (dataFile_of body) = None ->
  sync_handler_io now body fs
  = (writeFileSync_states (dataFile_of body +:+ ".tmp")
       (JSON_stringify_indent (JObj (bundle_of fs now body))) fs
     ++ [<[dataFile_of body := JSON_stringify_indent (JObj (bundle_of fs now body))]>
           (delete (dataFile_of body +:+ ".tmp") fs)],
     inl (res_json
            (JObj [("message", JStr "Data synced successfully");
                   ("syncCount",
                    default JNull (assoc "syncCount" (bundle_of fs now body)));
                   ("timestamp",
                    default JNull (assoc "lastSync" (bundle_of fs now body)))]))).
Proof.
  intros Hw Hr.
  unfold sync_handler_io, io_catch, io_bind, writeFileSync, renameSync, io_ret.
  rewrite Hw. cbv beta iota. unfold left_by.
  rewrite !writeFileSync_states_last. cbn [default from_option id].
  rewrite lookup_insert_eq, Hr. cbv beta iota.
  rewrite delete_insert_eq, app_nil_r. reflexivity.
Qed.

(** The run of the handler when one of the writes throws: the states of
    the temporary write, or the first of them, and the answer 500. *)
Lemma sync_handler_io_fails (fs : gmap string string) (now : string) (body : json) :
  write_error (dataFile_of body +:+ ".tmp") <> None
  \/ rename_error (dataFile_of body +:+ ".tmp") (dataFile_of body) <> None ->
  exists states,
    sync_handler_io now body fs
    = (states, inl (res_status_json 500 (JObj [("error", JStr "Failed to sync data")])))
    /\ forall st, st ∈ states ->
         st ∈ writeFileSync_states (dataFile_of body +:+ ".tmp")
                (JSON_stringify_indent (JObj (bundle_of fs now body))) fs.
Proof.
  intros Hfail.
  unfold sync_handler_io, io_catch, io_bind, writeFileSync, renameSync, io_ret.
  destruct (write_error (dataFile_of body +:+ ".tmp")) as [[n message]|] eqn:Hw.
  - cbv beta iota. eexists. split; [rewrite app_nil_r; reflexivity|].
    intros st Hin. apply elem_of_take in Hin as (i & Hi & _).
    eapply list_elem_of_lookup_2; eauto.
  - destruct Hfail as [Hfail|Hfail]; [congruence|].
    cbv beta iota. unfold left_by.
    rewrite !writeFileSync_states_last. cbn [default from_option id].
    rewrite lookup_insert_eq.
    destruct (rename_error _ _) as [message|]; [|congruence].
    cbv beta iota. eexists. split; [rewrite !app_nil_r; reflexivity|]. auto.
Qed.

Lemma sync_handler_ok (fs : gmap string string) (now : string) (body : json) :
  write_error (dataFile_of body +:+ ".tmp") = None ->
  rename_error (dataFile_of body +:+ ".tmp") (dataFile_of body) = None ->
  sync_handler fs now body
  = (res_json
       (JObj [("message", JStr "Data synced successfully");
              ("syncCount", default JNull (assoc "syncCount" (bundle_of fs now body)));
              ("timestamp", default JNull (assoc "lastSync" (bundle_of fs now body)))]),
     <[dataFile_of body := JSON_stringify_indent (JObj (bundle_of fs now body))]>
       (delete (dataFile_of body +:+ ".tmp") fs)).
Proof.
  intros Hw Hr. unfold sync_handler. rewrite (sync_handler_io_ok _ _ _ Hw Hr).
  unfold left_by. rewrite last_snoc. reflexivity.
Qed.

Lemma sync_handler_fails (fs : gmap string string) (now : string) (body : json) :
  write_error (dataFile_of body +:+ ".tmp") <> None
  \/ rename_error (dataFile_of body +:+ ".tmp") (dataFile_of body) <> None ->
  (sync_handler fs now body).1
  = res_status_json 500 (JObj [("error", JStr "Failed to sync data")])
  /\ forall other, other <> dataFile_of body +:+ ".tmp" ->
       (sync_handler fs now body).2 !! other = fs !! other.
Proof.
  intros Hfail. destruct (sync_handler_io_fails fs now body Hfail) as (states & Hrun & Hsub).
  unfold sync_handler. rewrite Hrun. simpl. split; [reflexivity|].
  intros other Hne. eapply left_by_other; eauto.
Qed.

Lemma sync_handler_other (fs : gmap string string) (now : string) (body : json)
    (other : string) :
  other <> dataFile_of body -> other <> dataFile_of body +:+ ".tmp" ->
  (sync_handler fs now body).2 !! other = fs !! other.
Proof.
  intros Hd Ht.
  destruct (write_error (dataFile_of body +:+ ".tmp")) as [e|] eqn:Hw;
    [|destruct (rename_error (dataFile_of body +:+ ".tmp") (dataFile_of body))
        as [e|] eqn:Hr].
  - apply sync_handler_fails; [left; congruence|exact Ht].
  - apply sync_handler_fails; [right; congruence|exact Ht].
  - rewrite (sync_handler_ok _ _ _ Hw Hr). simpl.
    rewrite lookup_insert_ne by congruence. apply lookup_delete_ne. congruence.
Qed.

(** Whether the writes go through is decided by the platform alone. *)
Lemma sync_handler_status (fs : gmap string string) (now : string) (body : json) :
  res_status (sync_handler fs now body).1 = 200
  <-> write_error (dataFile_of body +:+ ".tmp") = None
      /\ rename_error (dataFile_of body +:+ ".tmp") (dataFile_of body) = None.
Proof.
  destruct (write_error (dataFile_of body +:+ ".tmp")) as [e|] eqn:Hw.
  - destruct (sync_handler_fails fs now body) as [Hres _]; [left; congruence|].
    rewrite Hres. simpl. split; [lia|intros [? _]; congruence].
  - destruct (rename_error (dataFile_of body +:+ ".tmp") (dataFile_of body)) as [e|] eqn:Hr.
    + destruct (sync_handler_fails fs now body) as [Hres _]; [right; congruence|].
      rewrite Hres. simpl. split; [lia|intros [_ ?]; congruence].
    + rewrite (sync_handler_ok _ _ _ Hw Hr). simpl. split; auto.
Qed.

End SyncRun.

(** ** The sync route: the sync counter *)

Section SyncCount.
Context `{JSONCodec} `{NodeRuntime}.

Lemma fresh_bundle_count (now : string) (body : json) :
  assoc "syncCount" (fresh_bundle now body) = Some (JNum 0).
Proof. reflexivity. Qed.

Lemma set_count (v : json) (now : string) (body : json) :
  assoc "syncCount" (obj_set "syncCount" v (fresh_bundle now body)) = Some v.
Proof. reflexivity. Qed.

(** C10.  A request for the account [a] that passes validation is answered
    200 or 500: 200 exactly when the write of the temporary file and its
    renaming over [DB_DIR/a.json] go through.  Answered 200, it leaves in
    [DB_DIR/a.json] the bundle it built, and the [syncCount] of the answer
    is the one of that bundle: 0 when no readable bundle was stored in that
    file, and otherwise the stored [syncCount] plus 1 as JavaScript adds
    numbers, which is [n + 1] as long as that is at most 2^53 in absolute
    value (1 when the stored bundle has no [syncCount]).  So the counter is
    the number of successful syncs before this one.  Answered 500, it
    leaves [DB_DIR/a.json] as it was. *)
Theorem syncCount_is_previous_plus_one (fs : gmap string string) (now : string)
    (body : json) (a : string) :
  validateSyncData body = None ->
  get_field "accountId" body = Some (JStr a) ->
  let dataFile := path_join DB_DIR (a +:+ ".json") in
  let answer := (post_api_sync fs now body).1 in
  let stored := (post_api_sync fs now body).2 in
  let encryptedData := bundle_of fs now body in
  (res_status answer = 200 \/ res_status answer = 500)
  /\ (res_status answer = 200
      <-> write_error (dataFile +:+ ".tmp") = None
          /\ rename_error (dataFile +:+ ".tmp") dataFile = None)
  /\ (res_status answer = 200 ->
      stored !! dataFile = Some (JSON_stringify_indent (JObj encryptedData))
      /\ get_field "syncCount" (res_body answer) = assoc "syncCount" encryptedData)
  /\ (res_status answer = 500 ->
      stored !! dataFile = fs !! dataFile
      /\ res_body answer = JObj [("error", JStr "Failed to sync data")])
  /\ (no_bundle fs dataFile -> assoc "syncCount" encryptedData = Some (JNum 0))
  /\ (forall content existing,
        fs !! dataFile = Some content ->
        JSON_parse content = Some (JObj existing) ->
        (forall n, assoc "syncCount" existing = Some (JNum n) ->
           assoc "syncCount" encryptedData = Some (JNum (round_to_double (n + 1)))
           /\ (- 2 ^ 53 <= n + 1 <= 2 ^ 53 ->
               assoc "syncCount" encryptedData = Some (JNum (n + 1))))
        /\ (assoc "syncCount" existing = None ->
            assoc "syncCount" encryptedData = Some (JNum 1))).
Proof.
  intros Hvalid Haccount dataFile answer stored encryptedData.
  assert (dataFile_of body = dataFile) as Hfile by (apply dataFile_of_account; exact Haccount).
  assert (answer = (sync_handler fs now body).1) as Hanswer
    by (unfold answer, post_api_sync; rewrite Hvalid; reflexivity).
  assert (stored = (sync_handler fs now body).2) as Hstored
    by (unfold stored, post_api_sync; rewrite Hvalid; reflexivity).
  clearbody answer stored. subst answer stored.
  pose proof (sync_handler_status fs now body) as Hstatus. rewrite Hfile in Hstatus.
  assert (res_status (sync_handler fs now body).1 = 200 ->
          (sync_handler fs now body).2 !! dataFile
          = Some (JSON_stringify_indent (JObj encryptedData))
          /\ get_field "syncCount" (res_body (sync_handler fs now body).1)
             = assoc "syncCount" encryptedData) as Hok.
  { intros Hs. apply Hstatus in Hs as [Hw Hr]. rewrite <- Hfile in Hw, Hr.
    rewrite (sync_handler_ok _ _ _ Hw Hr), Hfile. simpl fst. simpl snd.
    split; [apply lookup_insert_eq|].
    unfold encryptedData, bundle_of, with_syncCount.
    destruct (fs !! dataFile_of body) as [content|]; [|reflexivity].
    destruct (JSON_parse content) as [[| | | | |]|]; reflexivity. }
  assert (res_status (sync_handler fs now body).1 <> 200 ->
          res_status (sync_handler fs now body).1 = 500
          /\ (sync_handler fs now body).2 !! dataFile = fs !! dataFile
          /\ res_body (sync_handler fs now body).1
             = JObj [("error", JStr "Failed to sync data")]) as Hko.
  { intros Hs.
    destruct (sync_handler_fails fs now body) as [Hres Hother].
    { rewrite Hfile.
      destruct (write_error (dataFile +:+ ".tmp")); [left; congruence|].
      destruct (rename_error (dataFile +:+ ".tmp") dataFile); [right; congruence|].
      exfalso. apply Hs, Hstatus. auto. }
    rewrite Hres. split; [reflexivity|]. split; [|reflexivity].
    apply Hother. rewrite Hfile. intros Heq. exact (append_tmp_neq dataFile (eq_sym Heq)). }
  split; [|split; [exact Hstatus|split; [exact Hok|split; [|split]]]].
  - destruct (Z.eq_dec (res_status (sync_handler fs now body).1) 200) as [Hs|Hs];
      [left; exact Hs|right; exact (proj1 (Hko Hs))].
  - intros Hs. apply Hko. lia.
  - unfold encryptedData, bundle_of, with_syncCount. rewrite Hfile.
    intros [->|(content & -> & [->| ->])]; reflexivity.
  - intros content existing Hstoredfile Hparse.
    unfold encryptedData, bundle_of, with_syncCount.
    rewrite Hfile, Hstoredfile, Hparse. simpl get_field. split.
    + intros n Hn. rewrite Hn, set_count.
      assert (plus_one (or_default (Some (JNum n)) (JNum 0))
              = JNum (round_to_double (n + 1))) as ->.
      { unfold or_default. simpl. destruct (Z.eqb_spec n 0) as [->|Hne]; reflexivity. }
      split; [reflexivity|].
      intros Hn1. rewrite (round_to_double_exact _ Hn1). reflexivity.
    + intros Hnone. rewrite Hnone, set_count. reflexivity.
Qed.

End SyncCount.

Lemma syncCount_is_previous_plus_one_witness :
  get_field "syncCount" (res_body (Double.sync_n 1).1) = Some (JNum 0)
  /\ get_field "syncCount" (res_body (Double.sync_n 2).1) = Some (JNum 1)
  /\ get_field "syncCount" (res_body (Double.sync_n 3).1) = Some (JNum 2)
  /\ @post_api_sync Double.codec Double.node ∅ "2024-01-03T00:00:00.000Z"
       Double.nested_body
     = (res_status_json 500 (JObj [("error", JStr "Failed to sync data")]), ∅).
Proof.
  split; [|split; [|split]].
  - change (Double.sync_n 1)
      with (@post_api_sync Double.codec Double.node ∅ "2024-01-03T00:00:00.000Z"
              Double.alex_body).
    destruct (@syncCount_is_previous_plus_one Double.codec Double.node ∅
                "2024-01-03T00:00:00.000Z" Double.alex_body "alex" eq_refl eq_refl)
      as (_ & Hstatus & Hok & _ & Hzero & _).
    rewrite (proj2 (Hok (proj2 Hstatus (conj eq_refl eq_refl)))).
    apply Hzero. left. apply lookup_empty.
  - vm_compute. reflexivity.
  - vm_compute. reflexivity.
  - vm_compute. reflexivity.
Defined.

(** ** The sync route: the write of the bundle *)

Section AtomicWrite.
Context `{JSONCodec} `{NodeRuntime}.

(** C7.  The handler writes the bundle of the account [a] to
    [DB_DIR/a.json.tmp] and renames that file over [DB_DIR/a.json].  Of the
    states the file system goes through from the call of the handler to its
    return, the partial states of the temporary write and the state between
    write and rename included, every one holds in [DB_DIR/a.json] what was
    there before the request or the whole new bundle, and every one but the
    last leaves every file other than the temporary one as it was.  The
    last is the state the handler leaves.  When the answer is 200, which is
    when both writes go through, that state holds the new bundle and no
    temporary file; when a write throws, the answer is 500 and every file
    other than the temporary one is as it was. *)
Theorem bundle_write_is_atomic (fs : gmap string string) (now : string)
    (body : json) (a : string) :
  get_field "accountId" body = Some (JStr a) ->
  let dataFile := path_join DB_DIR (a +:+ ".json") in
  let tempFile := dataFile +:+ ".tmp" in
  let content := JSON_stringify_indent (JObj (bundle_of fs now body)) in
  let states := sync_handler_states fs now body in
  (forall st, st ∈ states ->
     st !! dataFile = fs !! dataFile \/ st !! dataFile = Some content)
  /\ (forall i st, states !! i = Some st -> (S i < length states)%nat ->
        forall other, other <> tempFile -> st !! other = fs !! other)
  /\ last states = Some (sync_handler fs now body).2
  /\ (res_status (sync_handler fs now body).1 = 200
      <-> write_error tempFile = None /\ rename_error tempFile dataFile = None)
  /\ (res_status (sync_handler fs now body).1 = 200 ->
      (sync_handler fs now body).2 !! dataFile = Some content
      /\ (sync_handler fs now body).2 !! tempFile = None
      /\ forall other, other <> dataFile -> other <> tempFile ->
           (sync_handler fs now body).2 !! other = fs !! other)
  /\ (res_status (sync_handler fs now body).1 <> 200 ->
      res_status (sync_handler fs now body).1 = 500
      /\ forall other, other <> tempFile ->
           (sync_handler fs now body).2 !! other = fs !! other).
Proof.
  intros Haccount dataFile tempFile content states.
  assert (dataFile_of body = dataFile) as Hfile
    by (apply dataFile_of_account; exact Haccount).
  assert (dataFile <> tempFile) as Hne
    by (intros Heq; apply (append_tmp_neq dataFile); symmetry; exact Heq).
  pose proof (sync_handler_status fs now body) as Hstatus.
  rewrite Hfile in Hstatus. fold tempFile in Hstatus.
  assert (last states = Some (sync_handler fs now body).2) as Hlast.
  { unfold states, sync_handler_states, sync_handler.
    destruct (sync_handler_io now body fs) as [run r]. simpl. unfold left_by.
    destruct (last run) as [st|] eqn:Hrun.
    - rewrite last_cons, Hrun. reflexivity.
    - apply last_None in Hrun. subst run. reflexivity. }
  destruct (write_error tempFile) as [e|] eqn:Hw;
    [|destruct (rename_error tempFile dataFile) as [e|] eqn:Hr].
  3: {
    (* both writes go through *)
    unfold tempFile in Hw, Hr. rewrite <- Hfile in Hw, Hr.
    assert (states = (fs :: writeFileSync_states tempFile content fs)
                     ++ [<[dataFile := content]> (delete tempFile fs)]) as Hstates.
    { unfold states, sync_handler_states. rewrite (sync_handler_io_ok _ _ _ Hw Hr).
      rewrite Hfile. reflexivity. }
    assert ((sync_handler fs now body).2 = <[dataFile := content]> (delete tempFile fs))
      as Hleft.
    { rewrite (sync_handler_ok _ _ _ Hw Hr), Hfile. reflexivity. }
    assert (forall st, st ∈ fs :: writeFileSync_states tempFile content fs ->
              forall other, other <> tempFile -> st !! other = fs !! other) as Hbefore.
    { intros st Hin other Ho. apply elem_of_cons in Hin as [->|Hin]; [reflexivity|].
      eapply writeFileSync_states_other; eauto. }
    split; [|split; [|split; [exact Hlast|split; [exact Hstatus|split]]]].
    - intros st Hin. rewrite Hstates in Hin. apply elem_of_app in Hin as [Hin|Hin].
      + left. apply (Hbefore st Hin). exact Hne.
      + apply list_elem_of_singleton in Hin. subst st. right. apply lookup_insert_eq.
    - intros i st Hi Hlen other Ho. rewrite Hstates in Hi, Hlen.
      rewrite length_app in Hlen. simpl in Hlen.
      rewrite lookup_app_l in Hi by (simpl; lia).
      apply (Hbefore st); [|exact Ho]. eapply list_elem_of_lookup_2; eauto.
    - intros _. rewrite Hleft. split; [apply lookup_insert_eq|]. split.
      + rewrite lookup_insert_ne by exact Hne. apply lookup_delete_eq.
      + intros other Hd Ht. rewrite lookup_insert_ne by congruence.
        apply lookup_delete_ne. congruence.
    - intros Hs. exfalso. apply Hs, Hstatus. auto. }
  all: destruct (sync_handler_io_fails fs now body) as (run & Hrun & Hsub);
    [rewrite Hfile; fold tempFile; first [left; congruence|right; congruence]|];
    rewrite Hfile in Hsub; fold tempFile content in Hsub;
    destruct (sync_handler_fails fs now body) as [Hres Hother];
    [rewrite Hfile; fold tempFile; first [left; congruence|right; congruence]|];
    rewrite Hfile in Hother; fold tempFile in Hother;
    assert (forall st, st ∈ states ->
              forall other, other <> tempFile -> st !! other = fs !! other) as Hall
      by (intros st Hin other Ho; unfold states, sync_handler_states in Hin;
          rewrite Hrun in Hin; simpl in Hin;
          apply elem_of_cons in Hin as [->|Hin]; [reflexivity|];
          eapply writeFileSync_states_other; eauto);
    (split; [|split; [|split; [exact Hlast|split; [exact Hstatus|split]]]]);
    [ intros st Hin; left; apply (Hall st Hin); exact Hne
    | intros i st Hi _ other Ho; apply (Hall st); [|exact Ho];
      eapply list_elem_of_lookup_2; eauto
    | intros Hs; apply Hstatus in Hs as [? ?]; congruence
    | intros _; rewrite Hres; split; [reflexivity|exact Hother] ].
Qed.

End AtomicWrite.

Lemma bundle_write_is_atomic_witness :
  get_field "accountId" Double.alex_body = Some (JStr "alex")
  /\ (forall st,
        st ∈ @sync_handler_states Double.codec Double.node (Double.sync_n 1).2
               "2024-01-04T00:00:00.000Z" Double.alex_body ->
        st !! @path_join Double.node (@DB_DIR Double.node) ("alex" +:+ ".json")
        = (Double.sync_n 1).2
            !! @path_join Double.node (@DB_DIR Double.node) ("alex" +:+ ".json")
        \/ st !! @path_join Double.node (@DB_DIR Double.node) ("alex" +:+ ".json")
           = Some (@JSON_stringify_indent Double.node
                     (JObj (@bundle_of Double.codec Double.node (Double.sync_n 1).2
                              "2024-01-04T00:00:00.000Z" Double.alex_body))))
  /\ is_Some ((Double.sync_n 1).2 !! "secure-data/alex.json")
  /\ (2 < length (@sync_handler_states Double.codec Double.node (Double.sync_n 1).2
                    "2024-01-04T00:00:00.000Z" Double.alex_body))%nat.
Proof.
  split; [reflexivity|]. split; [|split].
  - exact (proj1 (@bundle_write_is_atomic Double.codec Double.node (Double.sync_n 1).2
                    "2024-01-04T00:00:00.000Z" Double.alex_body "alex" eq_refl)).
  - vm_compute. eauto.
  - vm_compute. lia.
Defined.

(** * Further properties of the code *)

(** ** SecureCrypto.generateUUID *)

Lemma pad_hex (b : byte) :
  padStart 2 "0" (toString16 (Byte.to_N b))
  = String (hex_digit (Byte.to_N b / 16))
      (String (hex_digit (Byte.to_N b mod 16)) EmptyString).
Proof. destruct b; reflexivity. Qed.

Lemma hex_digit_high (b : byte) : is_hex (hex_digit (Byte.to_N b / 16)) = true.
Proof. destruct b; reflexivity. Qed.

Lemma hex_digit_low (b : byte) : is_hex (hex_digit (Byte.to_N b mod 16)) = true.
Proof. destruct b; reflexivity. Qed.

Lemma version_nibble (b : byte) :
  hex_digit (Byte.to_N (Z_to_byte (js_or (js_and (byte_to_Z b) 15) 64)) / 16)
  = "4"%char.
Proof. destruct b; vm_compute; reflexivity. Qed.

Lemma variant_nibble (b : byte) :
  existsb
    (Ascii.eqb (hex_digit (Byte.to_N (Z_to_byte (js_or (js_and (byte_to_Z b) 63) 128)) / 16)))
    (String.list_ascii_of_string "89ab") = true.
Proof. destruct b; vm_compute; reflexivity. Qed.

(** X1.  From 16 random bytes [generateUUID] makes a string of 36
    characters: hyphens at positions 8, 13, 18 and 23, lower-case
    hexadecimal digits everywhere else, the version digit 4 at position 14
    and a variant digit 8, 9, a or b at position 19. *)
Theorem generateUUID_format (random : list byte) :
  length random = 16%nat ->
  String.length (generateUUID random) = 36%nat
  /\ (forall i c, String.get i (generateUUID random) = Some c ->
        if existsb (Nat.eqb i) [8; 13; 18; 23]%nat then c = "-"%char
        else is_hex c = true)
  /\ String.get 14 (generateUUID random) = Some "4"%char
  /\ exists c, String.get 19 (generateUUID random) = Some c
               /\ existsb (Ascii.eqb c) (String.list_ascii_of_string "89ab") = true.
Proof.
  intros Hlen.
  do 17 (destruct random as [|? random]; try discriminate Hlen). clear Hlen.
  unfold generateUUID. cbn [alter list_alter map].
  rewrite !pad_hex.
  cbv [slice slice_from String.concat String.append String.substring
       String.length Nat.sub String.get].
  split; [reflexivity|]. split; [|split].
  - intros i ch Hget.
    do 36 (destruct i as [|i];
           [injection Hget as <-; cbv [existsb Nat.eqb orb];
            first [reflexivity | apply hex_digit_high | apply hex_digit_low
                  | rewrite version_nibble; reflexivity ]|]).
    discriminate.
  - f_equal. apply version_nibble.
  - eexists. split; [reflexivity|]. apply variant_nibble.
Qed.

Lemma generateUUID_format_witness :
  generateUUID Double.random16 = "ff0012ab-cd34-4f9e-bf01-020304050607"
  /\ String.length (generateUUID Double.random16) = 36%nat.
Proof.
  split.
  - vm_compute. reflexivity.
  - exact (proj1 (generateUUID_format Double.random16 eq_refl)).
Defined.

(** ** App.getPasswordStrength *)

Lemma class_cover (u : Z) :
  lower_case u || upper_case u || digit u || other_char u = true.
Proof.
  unfold other_char.
  destruct (upper_case u), (lower_case u), (digit u); reflexivity.
Qed.

Lemma some_class (pass : list Z) :
  pass <> [] ->
  existsb lower_case pass || existsb upper_case pass || existsb digit pass
  || existsb other_char pass = true.
Proof.
  destruct pass as [|u pass]; [congruence|]. intros _. simpl.
  pose proof (class_cover u) as Hu.
  destruct (lower_case u), (upper_case u), (digit u), (other_char u);
    try discriminate Hu;
    destruct (existsb lower_case pass), (existsb upper_case pass),
      (existsb digit pass), (existsb other_char pass); reflexivity.
Qed.

(** X2.  [getPasswordStrength] calls a passphrase Strong only if it has at
    least 12 code units: below that the two length tests fail and the four
    character classes give at most 4 points. *)
Theorem strong_needs_12 (pass : list Z) :
  label (getPasswordStrength pass) = "Strong" ->
  (12 <= length pass)%nat /\ 5 <= score (getPasswordStrength pass) <= 6.
Proof.
  unfold getPasswordStrength.
  destruct (Nat.leb_spec 12 (length pass)) as [H12|H12];
    destruct (Nat.leb_spec 16 (length pass)) as [H16|H16]; try lia;
    destruct (existsb lower_case pass), (existsb upper_case pass),
      (existsb digit pass), (existsb other_char pass);
    simpl; intros Hlabel; try discriminate Hlabel; split; lia.
Qed.

Lemma strong_needs_12_witness :
  (12 <= length (Double.units "CorrectHorseBattery9!"))%nat
  /\ 5 <= score (getPasswordStrength (Double.units "CorrectHorseBattery9!")) <= 6.
Proof. apply strong_needs_12. vm_compute. reflexivity. Defined.

(** X3.  A passphrase of 16 code units or more scores at least 3 and is
    never called Weak, whatever its characters: both length tests pass and
    its first code unit belongs to one of the four classes. *)
Theorem long_passphrase_not_weak (pass : list Z) :
  (16 <= length pass)%nat ->
  3 <= score (getPasswordStrength pass)
  /\ label (getPasswordStrength pass) <> "Weak".
Proof.
  intros H16.
  assert (pass <> []) as Hne by (intros ->; simpl in H16; lia).
  pose proof (some_class pass Hne) as Hclass.
  unfold getPasswordStrength.
  destruct (Nat.leb_spec 12 (length pass)) as [H12|H12]; [|lia].
  destruct (Nat.leb_spec 16 (length pass)) as [H16'|H16']; [|lia].
  destruct (existsb lower_case pass), (existsb upper_case pass),
    (existsb digit pass), (existsb other_char pass);
    simpl in *; try discriminate Hclass; split; try lia; discriminate.
Qed.

Lemma long_passphrase_not_weak_witness :
  3 <= score (getPasswordStrength (Double.units "aaaaaaaaaaaaaaaa"))
  /\ label (getPasswordStrength (Double.units "aaaaaaaaaaaaaaaa")) <> "Weak".
Proof. apply long_passphrase_not_weak. vm_compute. lia. Defined.

(** ** TransactionParser.categorize *)

Section Categorize.
Context `{StringRuntime}.

(** X4.  For the type income, [categorize] returns Income for every text:
    the loop skips the six expense categories, and both its only match and
    its fall-through give Income. *)
Theorem categorize_income (text : string) : categorize text "income" = "Income".
Proof.
  unfold categorize, categories. cbn [categorize_loop].
  change (String.eqb "income" "income") with true. cbn [andb negb String.eqb].
  cbv [String.eqb Ascii.eqb Bool.eqb negb andb].
  match goal with |- context [existsb ?f ?l] => destruct (existsb f l) end;
    reflexivity.
Qed.

(** X5.  For any other type, [categorize] returns one of the seven category
    names or Other, and it returns Other when the lower-cased text contains
    none of the keywords. *)
Theorem categorize_expense (text type : string) :
  type <> "income" ->
  categorize text type ∈ (map fst categories ++ ["Other"])
  /\ ((forall cat keywords k, (cat, keywords) ∈ categories -> k ∈ keywords ->
         includes k (toLowerCase text) = false) ->
      categorize text type = "Other").
Proof.
  intros Htype. apply String.eqb_neq in Htype.
  unfold categorize. split.
  - unfold categories. cbn [categorize_loop]. rewrite Htype. cbn [andb].
    repeat match goal with
           | |- context [if existsb ?f ?l then _ else _] =>
               destruct (existsb f l); [cbn; set_solver|]
           end.
    cbn. set_solver.
  - intros Hnone.
    assert (forall entries, (forall cat keywords k, (cat, keywords) ∈ entries ->
              k ∈ keywords -> includes k (toLowerCase text) = false) ->
            categorize_loop (toLowerCase text) type entries = None) as Hloop.
    { induction entries as [|[cat keywords] entries IH]; intros Hk; [reflexivity|].
      cbn [categorize_loop]. rewrite Htype. cbn [andb].
      assert (existsb (fun k => includes k (toLowerCase text)) keywords = false) as ->.
      { apply not_true_is_false. intros Hex. apply existsb_exists in Hex as (k & Hin & Hk').
        rewrite (Hk cat keywords k) in Hk'; [discriminate|left|].
        apply list_elem_of_In. exact Hin. }
      apply IH. intros cat' kws' k' Hin Hk''.
      apply (Hk cat' kws' k'); [right; exact Hin|exact Hk'']. }
    rewrite (Hloop categories Hnone), Htype. reflexivity.
Qed.

End Categorize.

Lemma categorize_expense_witness :
  @categorize Double.strings "Paid 12 at the Cafe" "expense" = "Food & Dining"
  /\ @categorize Double.strings "xyz" "expense" ∈ (map fst categories ++ ["Other"]).
Proof.
  split.
  - vm_compute. reflexivity.
  - apply (@categorize_expense Double.strings "xyz" "expense"). discriminate.
Defined.

(** ** Database.createAccount, Database.signIn and Database.getAccounts *)

Section Accounts.
Context `{SubtleCrypto} `{JSONCodec}.

Lemma verifyPassword_own (passphrase : string) (salt : list byte) :
  verifyPassword passphrase salt (createVerifier passphrase salt) = true.
Proof.
  unfold verifyPassword, verifyPassword_run.
  rewrite Nat.eqb_refl. simpl negb. cbv iota.
  pose proof (verify_loop_result (createVerifier passphrase salt)
                (createVerifier passphrase salt) 0 0 eq_refl
                (Array_from_bytes _) (Array_from_bytes _)) as Hres.
  destruct (verify_loop _ _ 0 0) as [r it]. simpl in *.
  rewrite Hres by (unfold is_byte; lia). apply Z.eqb_eq.
  apply or_accumulate_zero; auto.
Qed.

(** X6.  An account created under an id that is free can be signed in to
    with the passphrase it was created with: [signIn] returns the stored
    account, with the given name, and leaves the object with the
    per-account database handle, the salt, and the key derived from
    passphrase and salt. *)
Theorem createAccount_then_signIn (d : database) (uuid : string)
    (fresh_salt : list byte) (now name passphrase : string) :
  accountsDB d !! uuid = None ->
  exists d1 account d2,
    createAccount d uuid fresh_salt now name passphrase = inl (uuid, d1)
    /\ signIn d1 uuid passphrase = inl (account, d2)
    /\ acct_id account = uuid /\ acct_name account = name
    /\ userDB d2 = Some (user_db_name uuid)
    /\ crypto d2 = {| key := Some (deriveKey passphrase fresh_salt);
                      accountId := Some uuid; salt := Some fresh_salt |}
    /\ accountsDB d2 = accountsDB d1.
Proof.
  intros Hfree. unfold createAccount, pouch_put_new. rewrite Hfree. simpl.
  eexists. eexists. eexists. split; [reflexivity|].
  unfold signIn, pouch_get. simpl. rewrite lookup_insert_eq. simpl.
  rewrite Uint8Array_Array_from, verifyPassword_own. simpl.
  repeat split; reflexivity.
Qed.

(** X7.  Signing out and signing in again with the same account and
    passphrase gives back the same key, salt and database handle, so
    [getAll] returns after it what it returned before: sign-out deletes
    nothing that is stored. *)
Theorem signOut_then_signIn (d d1 : database) (account : account)
    (accountId passphrase : string) (stores : gmap string (gmap string doc)) :
  signIn d accountId passphrase = inl (account, d1) ->
  exists d2, signIn (signOut d1) accountId passphrase = inl (account, d2)
             /\ crypto d2 = crypto d1 /\ userDB d2 = userDB d1
             /\ getAll d2 stores = getAll d1 stores.
Proof.
  unfold signIn, pouch_get. simpl.
  destruct (accountsDB d !! accountId) as [a|] eqn:Hget; simpl; [|discriminate].
  destruct (verifyPassword _ _ _) eqn:Hv; simpl; [|discriminate].
  intros Heq. inversion Heq; subst. simpl. rewrite Hget. simpl. rewrite Hv. simpl.
  eexists. split; [reflexivity|]. repeat split; reflexivity.
Qed.

Lemma elem_of_values {A : Type} (m : gmap string A) (a : A) :
  a ∈ (map_to_list m).*2 <-> exists k, m !! k = Some a.
Proof.
  rewrite list_elem_of_fmap. split.
  - intros ([k a'] & -> & Hin). apply elem_of_map_to_list in Hin. eauto.
  - intros (k & Hk). exists (k, a). split; [reflexivity|].
    apply elem_of_map_to_list. exact Hk.
Qed.

Lemma elem_of_getAccounts (d : database) (x : account_summary) :
  x ∈ getAccounts d
  <-> exists k a, accountsDB d !! k = Some a
        /\ x = {| sum_id := acct_id a; sum_name := acct_name a;
                  sum_createdAt := acct_createdAt a |}.
Proof.
  unfold getAccounts. rewrite list_elem_of_fmap. split.
  - intros (a & -> & Hin). rewrite merge_sort_Permutation in Hin.
    apply elem_of_values in Hin as (k & Hk). eauto.
  - intros (k & a & Hk & ->). exists a. split; [reflexivity|].
    rewrite merge_sort_Permutation. apply elem_of_values. eauto.
Qed.

(** X8.  [getAccounts] lists one entry for every stored account, made of
    its id, name and creation date.  After [createAccount] under a free id
    the list holds the entry of the new account and the entries it held
    before, and nothing else. *)
Theorem getAccounts_after_createAccount (d : database) (uuid : string)
    (fresh_salt : list byte) (now name passphrase : string) :
  accountsDB d !! uuid = None ->
  length (getAccounts d) = size (accountsDB d)
  /\ exists d1,
       createAccount d uuid fresh_salt now name passphrase = inl (uuid, d1)
       /\ length (getAccounts d1) = S (length (getAccounts d))
       /\ forall x, x ∈ getAccounts d1
            <-> x = {| sum_id := uuid; sum_name := name; sum_createdAt := now |}
                \/ x ∈ getAccounts d.
Proof.
  intros Hfree.
  assert (forall d', length (getAccounts d') = size (accountsDB d')) as Hlen.
  { intros d'. unfold getAccounts.
    rewrite length_map, merge_sort_Permutation, length_fmap, length_map_to_list.
    reflexivity. }
  split; [apply Hlen|].
  unfold createAccount, pouch_put_new. rewrite Hfree. simpl.
  eexists. split; [reflexivity|]. split.
  - rewrite !Hlen. simpl. apply map_size_insert_None. exact Hfree.
  - intros x. rewrite !elem_of_getAccounts. simpl. split.
    + intros (k & a & Hk & ->).
      destruct (decide (k = uuid)) as [->|Hne].
      * rewrite lookup_insert_eq in Hk. inversion Hk; subst. left. reflexivity.
      * rewrite lookup_insert_ne in Hk by congruence. right. eauto.
    + intros [->|(k & a & Hk & ->)].
      * eexists uuid, _. rewrite lookup_insert_eq. split; reflexivity.
      * exists k, a. split; [|reflexivity].
        rewrite lookup_insert_ne; [exact Hk|]. intros ->. congruence.
Qed.

End Accounts.

Lemma createAccount_then_signIn_witness :
  exists d1 account d2,
    @createAccount Double.subtle (@database_new Double.subtle) Double.alex_id
      [x0a; x0b; x0c] "2024-01-01T00:00:00.000Z" "Alex" "CorrectHorseBattery9!"
    = inl (Double.alex_id, d1)
    /\ @signIn Double.subtle d1 Double.alex_id "CorrectHorseBattery9!"
       = inl (account, d2)
    /\ acct_id account = Double.alex_id /\ acct_name account = "Alex"
    /\ userDB d2 = Some (user_db_name Double.alex_id)
    /\ crypto d2
       = {| key := Some (@deriveKey Double.subtle "CorrectHorseBattery9!"
                           [x0a; x0b; x0c]);
            accountId := Some Double.alex_id; salt := Some [x0a; x0b; x0c] |}
    /\ accountsDB d2 = accountsDB d1.
Proof.
  apply (@createAccount_then_signIn Double.subtle (@database_new Double.subtle)).
  reflexivity.
Defined.

Lemma signOut_then_signIn_witness :
  exists d2,
    @signIn Double.subtle
      (@signOut Double.subtle
         (db (@run Double.subtle (@system_new Double.subtle) Double.sign_up)))
      Double.alex_id "CorrectHorseBattery9!"
    = inl (Build_account Double.alex_id "Alex" [10; 11; 12]
             (@createVerifier Double.subtle "CorrectHorseBattery9!" [x0a; x0b; x0c])
             "2024-01-01T00:00:00.000Z", d2)
    /\ crypto d2
       = crypto (db (@run Double.subtle (@system_new Double.subtle) Double.sign_up))
    /\ userDB d2
       = userDB (db (@run Double.subtle (@system_new Double.subtle) Double.sign_up))
    /\ @getAll Double.subtle Double.codec d2 Double.alex_store
       = @getAll Double.subtle Double.codec
           (db (@run Double.subtle (@system_new Double.subtle) Double.sign_up))
           Double.alex_store.
Proof.
  apply (@signOut_then_signIn Double.subtle Double.codec Double.alex_db).
  vm_compute. reflexivity.
Defined.

Lemma getAccounts_after_createAccount_witness :
  length (@getAccounts Double.subtle (@database_new Double.subtle)) = 0%nat
  /\ @getAccounts Double.subtle Double.alex_db
     = [ {| sum_id := Double.alex_id; sum_name := "Alex";
            sum_createdAt := "2024-01-01T00:00:00.000Z" |} ].
Proof.
  split.
  - exact (proj1 (@getAccounts_after_createAccount Double.subtle
                    (@database_new Double.subtle) Double.alex_id [x0a; x0b; x0c]
                    "2024-01-01T00:00:00.000Z" "Alex" "CorrectHorseBattery9!"
                    eq_refl)).
  - vm_compute. reflexivity.
Defined.

(** ** Database.save, Database.update and Database.delete *)

Section WritesThenReads.
Context `{SubtleCrypto} `{!SubtleCryptoLaws} `{JSONCodec} `{!JSONCodecLaws}.


Lemma elem_of_allDocs (store : gmap string doc) (row : doc) :
  row ∈ allDocs store <-> exists k, store !! k = Some row.
Proof. unfold allDocs. rewrite merge_sort_Permutation. apply elem_of_values. Qed.

Lemma elem_of_getAll (d : database) (stores : gmap string (gmap string doc))
    (h : string) (r : list (string * json)) :
  userDB d = Some h ->
  r ∈ (getAll d stores).1
  <-> exists k row, default ∅ (stores !! h) !! k = Some row
        /\ readable (crypto d) row = Some r.
Proof.
  intros Hh. unfold getAll. rewrite Hh, getAll_loop_spec. simpl.
  rewrite list_elem_of_omap. split.
  - intros (row & Hin & Hr). apply elem_of_allDocs in Hin as (k & Hk). eauto.
  - intros (k & row & Hk & Hr). exists row. split; [|exact Hr].
    apply elem_of_allDocs. eauto.
Qed.

Lemma scheduleSync_keeps (s : system) :
  stores (scheduleSync s) = stores s /\ userDB (db (scheduleSync s)) = userDB (db s)
  /\ crypto (db (scheduleSync s)) = crypto (db s)
  /\ pendingSync (db (scheduleSync s)) = true
  /\ started (scheduleSync s) = started s /\ running (scheduleSync s) = running s.
Proof.
  unfold scheduleSync. destruct (pendingSync (db s)) eqn:Hp; simpl; auto 10.
Qed.



(** X11.  In a session, [delete] of a stored document leaves a sync
    pending, and [getAll] then returns exactly what the other documents
    give.  For an id that the database does not hold, [update] and [delete]
    reject with the 404 of [get]. *)
Theorem delete_then_getAll (s : system) (h docId : string) :
  userDB (db s) = Some h ->
  (forall old, default ∅ (stores s !! h) !! docId = Some old ->
     exists s',
       delete_doc s docId = inl s'
       /\ pendingSync (db s') = true
       /\ forall r, r ∈ (getAll (db s') (stores s')).1
            <-> exists k' row, k' <> docId
                  /\ default ∅ (stores s !! h) !! k' = Some row
                  /\ readable (crypto (db s)) row = Some r)
  /\ (default ∅ (stores s !! h) !! docId = None ->
      delete_doc s docId = inr (PouchError 404 "not_found")
      /\ forall fresh_iv now_ms now data,
           update s fresh_iv now_ms now docId data
           = inr (PouchError 404 "not_found")).
Proof.
  intros Hh. split.
  - intros old Hold. unfold delete_doc, pouch_get. rewrite Hh, Hold. simpl.
    eexists. split; [reflexivity|].
    match goal with |- context [scheduleSync ?s0] =>
      destruct (scheduleSync_keeps s0) as (Hst & Hu & Hc & Hp & _) end.
    simpl in Hst, Hu, Hc.
    split; [exact Hp|]. intros r.
    rewrite (elem_of_getAll _ _ h) by (rewrite Hu; exact Hh).
    rewrite Hst, Hc, lookup_insert_eq. simpl. split.
    + intros (k' & row & Hk' & Hrow).
      destruct (decide (k' = docId)) as [->|Hne].
      * rewrite lookup_delete_eq in Hk'. discriminate.
      * rewrite lookup_delete_ne in Hk' by congruence. eauto.
    + intros (k' & row & Hne & Hk' & Hrow). exists k', row. split; [|exact Hrow].
      rewrite lookup_delete_ne by congruence. exact Hk'.
  - intros Hnone. unfold delete_doc, update, pouch_get. rewrite Hh, Hnone. simpl.
    split; [reflexivity|]. intros. reflexivity.
Qed.

End WritesThenReads.



Lemma delete_then_getAll_witness :
  (exists s', @delete_doc Double.subtle Double.with_budget "budget_1" = inl s'
              /\ pendingSync (db s') = true
              /\ (@getAll Double.subtle Double.codec (db s') (stores s')).1 = [])
  /\ @delete_doc Double.subtle Double.with_budget "budget_2"
     = inr (PouchError 404 "not_found").
Proof.
  destruct (@delete_then_getAll Double.subtle Double.codec Double.with_budget
              (user_db_name Double.alex_id) "budget_1"
              ltac:(vm_compute; reflexivity)) as [Hdel _].
  destruct (Hdel Double.budget_doc ltac:(vm_compute; reflexivity))
    as (s' & Hs' & Hp & _).
  split.
  - exists s'. split; [exact Hs'|]. split; [exact Hp|].
    vm_compute in Hs'. inversion Hs'. vm_compute. reflexivity.
  - vm_compute. reflexivity.
Defined.

(** ** The type field that Database.getByType looks at *)

Lemma assoc_obj_set (k k' : string) (v : json) (o : list (string * json)) :
  assoc k (obj_set k' v o) = if String.eqb k k' then Some v else assoc k o.
Proof.
  induction o as [|[k0 v0] o IH]; simpl.
  - destruct (String.eqb k k'); reflexivity.
  - destruct (String.eqb_spec k' k0) as [->|Hne]; simpl.
    + destruct (String.eqb k k0); reflexivity.
    + destruct (String.eqb_spec k k0) as [->|Hne'].
      * destruct (String.eqb_spec k0 k') as [->|_]; [congruence|reflexivity].
      * exact IH.
Qed.

Lemma assoc_spread_absent (k : string) (props base : list (string * json)) :
  (forall v, (k, v) ∉ props) ->
  assoc k (foldl (fun o kv => obj_set kv.1 kv.2 o) base props) = assoc k base.
Proof.
  revert base. induction props as [|[k0 v0] props IH]; intros base Hno; simpl.
  - reflexivity.
  - rewrite IH by (intros v Hin; apply (Hno v); right; exact Hin).
    rewrite assoc_obj_set.
    destruct (String.eqb_spec k k0) as [->|_]; [|reflexivity].
    exfalso. apply (Hno v0). left.
Qed.

Lemma assoc_spread_present (k : string) (v : json)
    (props base : list (string * json)) :
  (k, v) ∈ props -> (forall v', (k, v') ∈ props -> v' = v) ->
  assoc k (foldl (fun o kv => obj_set kv.1 kv.2 o) base props) = Some v.
Proof.
  revert base. induction props as [|[k0 v0] props IH] using rev_ind;
    intros base Hin Hall.
  - inversion Hin.
  - rewrite foldl_app. simpl. rewrite assoc_obj_set.
    destruct (String.eqb_spec k k0) as [->|Hne].
    + f_equal. apply Hall. apply elem_of_app. right. left.
    + apply IH.
      * apply elem_of_app in Hin as [Hin|Hin]; [exact Hin|].
        apply list_elem_of_singleton in Hin. congruence.
      * intros v' Hv'. apply Hall. apply elem_of_app. left. exact Hv'.
Qed.

Section RecordType.
Context `{SubtleCrypto} `{JSONCodec}.

Lemma getByType_filter (d : database) (stores : gmap string (gmap string doc))
    (type : string) :
  (getByType d stores type).1
  = filter (fun r => type_is type r = true) (getAll d stores).1.
Proof. unfold getByType. destruct (getAll d stores). reflexivity. Qed.

(** X12.  The [type] that [getByType] compares is the one of the returned
    record, in which the properties of the decrypted data overwrite [_id],
    [type] and [createdAt].  A stored document of type [t] whose data has no
    [type] of its own is returned by [getByType(t)].  When the data has a
    [type] with another value, the record carries that value and
    [getByType(t)] does not return it, although [getAll] does. *)
Theorem getByType_compares_record_type (d : database)
    (stores : gmap string (gmap string doc)) (h k : string) (row : doc)
    (e : envelope) (fields : list (string * json)) :
  userDB d = Some h -> default ∅ (stores !! h) !! k = Some row ->
  doc_encryptedData row = Some e -> decrypt (crypto d) e = inl (JObj fields) ->
  decrypted_record row (JObj fields) ∈ (getAll d stores).1
  /\ ((forall v, ("type", v) ∉ fields) ->
      decrypted_record row (JObj fields) ∈ (getByType d stores (doc_type row)).1)
  /\ (forall v, ("type", v) ∈ fields ->
        (forall v', ("type", v') ∈ fields -> v' = v) ->
        v <> JStr (doc_type row) ->
        assoc "type" (decrypted_record row (JObj fields)) = Some v
        /\ decrypted_record row (JObj fields)
           ∉ (getByType d stores (doc_type row)).1).
Proof.
  intros Hh Hk He Hdec.
  assert (decrypted_record row (JObj fields) ∈ (getAll d stores).1) as Hall.
  { apply (elem_of_getAll _ _ h _ Hh). exists k, row. split; [exact Hk|].
    unfold readable. rewrite He, Hdec. reflexivity. }
  split; [exact Hall|]. split.
  - intros Hno. rewrite getByType_filter. apply list_elem_of_filter.
    split; [|exact Hall]. apply type_is_spec.
    unfold decrypted_record, spread_into. simpl spread_props.
    rewrite assoc_spread_absent by exact Hno. reflexivity.
  - intros v Hin Hall' Hne.
    assert (assoc "type" (decrypted_record row (JObj fields)) = Some v) as Hty.
    { unfold decrypted_record, spread_into. simpl spread_props.
      apply assoc_spread_present; assumption. }
    split; [exact Hty|]. rewrite getByType_filter. intros Hf.
    apply list_elem_of_filter in Hf as [Hf _]. apply type_is_spec in Hf.
    congruence.
Qed.

(** X13.  A record that [save] has just stored can be deleted under the
    id that [save] returned, and the delete undoes the save: [getAll]
    returns what it returned before the save, neither more nor less.  This
    rests on [save] refusing an id that is taken.  The two writes share one
    timer: the sync that the save scheduled is still the only one added,
    and it is pending. *)
Theorem save_then_delete_restores (s s1 : system) (random fresh_iv : list byte)
    (now_ms : Z) (now type : string) (data : json) (id : string) :
  save s random fresh_iv now_ms now type data = inl (id, s1) ->
  exists s2,
    delete_doc s1 id = inl s2
    /\ getAll (db s2) (stores s2) = getAll (db s) (stores s)
    /\ pendingSync (db s2) = true
    /\ timers s2 = timers s1
    /\ (pendingSync (db s) = false -> timers s2 = timers s ++ [clock s + 2000])
    /\ (pendingSync (db s) = true -> timers s2 = timers s).
Proof.
  unfold save. destruct (userDB (db s)) as [h|] eqn:Hh; [|discriminate].
  destruct (encrypt _ _ _ _) as [e|]; simpl; [|discriminate].
  unfold pouch_put_new.
  destruct (default ∅ (stores s !! h) !! _) eqn:Hfree; simpl; [discriminate|].
  intros Heq. inversion Heq as [[Hid Hs1]]. clear Heq.
  rewrite Hid in *.
  set (row := {| doc_id := id; doc_type := type; doc_encryptedData := Some e;
                 doc_createdAt := now; doc_updatedAt := None |}) in *.
  set (s0 := with_stores (<[h := <[id := row]> (default ∅ (stores s !! h))]> (stores s)) s)
    in *.
  destruct (scheduleSync_keeps s0) as (Hst1 & Hu1 & Hc1 & Hp1 & _).
  rewrite Hs1 in Hst1, Hu1, Hc1, Hp1.
  assert (default ∅ (stores s1 !! h) = <[id := row]> (default ∅ (stores s !! h))) as Hstore1.
  { rewrite Hst1. unfold s0. simpl. rewrite lookup_insert_eq. reflexivity. }
  rewrite !Hs1. unfold delete_doc, pouch_get. rewrite Hu1. unfold s0 at 1. simpl userDB. rewrite Hh.
  rewrite Hstore1, lookup_insert_eq. simpl.
  eexists. split; [reflexivity|].
  set (s1' := with_stores _ s1).
  destruct (scheduleSync_keeps s1') as (Hst2 & Hu2 & Hc2 & Hp2 & _).
  assert (pendingSync (db s1') = true) as Hp1' by exact Hp1.
  rewrite (scheduleSync_pending s1' Hp1') in *.
  split; [|split; [exact Hp1|split; [reflexivity|]]].
  - unfold getAll. simpl db. simpl stores.
    rewrite Hu1, Hc1. unfold s0. simpl userDB. simpl crypto. rewrite Hh.
    rewrite lookup_insert_eq. simpl default.
    rewrite delete_insert_id by exact Hfree. reflexivity.
  - simpl timers. rewrite <- Hs1. unfold scheduleSync, s0. simpl.
    split; intros Hp; rewrite Hp; reflexivity.
Qed.

(** After [signOut] the object holds no key and no database handle:
    [getAll] returns the empty list, [save], [update] and [delete] throw
    'Not signed in', [encrypt] and [decrypt] throw 'No encryption key'.
    The stored documents and the accounts are untouched, and so are the
    pending timers and the two sync flags. *)
Lemma signOut_locks (s : system) :
  stores (step s SignOut) = stores s
  /\ accountsDB (db (step s SignOut)) = accountsDB (db s)
  /\ timers (step s SignOut) = timers s
  /\ pendingSync (db (step s SignOut)) = pendingSync (db s)
  /\ isSyncing (db (step s SignOut)) = isSyncing (db s)
  /\ getAll (db (step s SignOut)) (stores (step s SignOut)) = ([], [])
  /\ (forall random fresh_iv now_ms now type data,
        save (step s SignOut) random fresh_iv now_ms now type data
        = inr (Error "Not signed in"))
  /\ (forall fresh_iv now_ms now docId data,
        update (step s SignOut) fresh_iv now_ms now docId data
        = inr (Error "Not signed in"))
  /\ (forall docId, delete_doc (step s SignOut) docId = inr (Error "Not signed in"))
  /\ (forall fresh_iv now_ms record,
        encrypt (crypto (db (step s SignOut))) fresh_iv now_ms record
        = inr (Error "No encryption key"))
  /\ (forall obj, decrypt (crypto (db (step s SignOut))) obj
                  = inr (Error "No encryption key")).
Proof. repeat split. Qed.

End RecordType.

Lemma getByType_compares_record_type_witness :
  (@getByType Double.subtle Double.codec Double.alex_session Double.alex_store
     "transaction").1 = []
  /\ assoc "type"
       (decrypted_record Double.expense_doc
          (JObj [("amount", JNum 42); ("type", JStr "expense")]))
     = Some (JStr "expense")
  /\ decrypted_record Double.expense_doc
       (JObj [("amount", JNum 42); ("type", JStr "expense")])
     ∈ (@getAll Double.subtle Double.codec Double.alex_session Double.alex_store).1.
Proof.
  destruct (@getByType_compares_record_type Double.subtle Double.codec
              Double.alex_session Double.alex_store (user_db_name "alex")
              "transaction_2" Double.expense_doc
              (Double.seal Double.session [x02]
                 (JObj [("amount", JNum 42); ("type", JStr "expense")]))
              [("amount", JNum 42); ("type", JStr "expense")]
              eq_refl ltac:(vm_compute; reflexivity) eq_refl
              ltac:(vm_compute; reflexivity)) as (Hall & _ & Hother).
  split; [vm_compute; reflexivity|]. split; [|exact Hall].
  apply (Hother (JStr "expense")).
  - right. left.
  - intros v' Hv'.
    apply elem_of_cons in Hv' as [Heq|Hv']; [discriminate Heq|].
    apply elem_of_cons in Hv' as [Heq|Hv']; [congruence|inversion Hv'].
  - discriminate.
Defined.

Lemma save_then_delete_restores_witness :
  exists s1 s2,
    @save Double.subtle Double.codec Double.signed_in Double.random16 [x07]
      1700000000000 "2024-01-02T00:00:00.000Z" "transaction" Double.amount42
    = inl ("transaction_ff0012ab-cd34-4f9e-bf01-020304050607", s1)
    /\ @delete_doc Double.subtle s1
         "transaction_ff0012ab-cd34-4f9e-bf01-020304050607" = inl s2
    /\ @getAll Double.subtle Double.codec (db s2) (stores s2)
       = @getAll Double.subtle Double.codec (db Double.signed_in)
           (stores Double.signed_in)
    /\ timers s2 = [2000].
Proof.
  destruct (@save Double.subtle Double.codec Double.signed_in Double.random16 [x07]
              1700000000000 "2024-01-02T00:00:00.000Z" "transaction"
              Double.amount42) as [[id s1]|err] eqn:Hsave;
    [|vm_compute in Hsave; discriminate].
  destruct (@save_then_delete_restores Double.subtle Double.codec Double.signed_in
              s1 _ _ _ _ _ _ id Hsave) as (s2 & Hdelete & Hsame & _ & _ & Hfirst & _).
  assert (id = "transaction_ff0012ab-cd34-4f9e-bf01-020304050607") as ->.
  { vm_compute in Hsave. inversion Hsave. reflexivity. }
  exists s1, s2. split; [reflexivity|]. split; [exact Hdelete|].
  split; [exact Hsame|]. rewrite Hfirst; reflexivity.
Defined.

(** ** The sync engine: timers, sign-out, and what a sync sends *)

Section Timers.
Context `{SubtleCrypto} `{JSONCodec}.

Lemma one_timer_scheduleSync (s : system) : one_timer s -> one_timer (scheduleSync s).
Proof.
  unfold scheduleSync. intros [Hlen Hp].
  destruct (pendingSync (db s)) eqn:Hpend; [split; [exact Hlen|rewrite Hpend; auto]|].
  assert (timers s = []) as Hnil.
  { destruct (timers s) as [|t l]; [reflexivity|].
    assert (false = true) by (apply Hp; discriminate). discriminate. }
  split; simpl; rewrite Hnil; simpl; [lia|reflexivity].
Qed.

Lemma syncToServer_timers (s : system) : timers (syncToServer s) = timers s.
Proof.
  unfold syncToServer. destruct (isSyncing (db s)), (userDB (db s)); reflexivity.
Qed.

Lemma one_timer_advance (t : Z) (s : system) : one_timer s -> one_timer (advance t s).
Proof.
  intros [Hlen Hp]. unfold advance.
  destruct (timers s) as [|d [|d' l]] eqn:Ht; simpl in Hlen; [| |lia].
  - rewrite !filter_nil. simpl. split; simpl; [lia|congruence].
  - destruct (decide (d <= t)) as [Hle|Hgt].
    + rewrite (filter_cons_True (fun d => d <= t)), filter_nil by exact Hle.
      rewrite (filter_cons_False (fun d => ~ d <= t)), filter_nil by tauto.
      simpl. unfold fire. split; simpl; rewrite syncToServer_timers; simpl;
        [lia|congruence].
    + rewrite (filter_cons_False (fun d => d <= t)), filter_nil by exact Hgt.
      rewrite (filter_cons_True (fun d => ~ d <= t)), filter_nil by exact Hgt.
      simpl. split; simpl; [lia|]. intros _. apply Hp. discriminate.
Qed.

Lemma one_timer_step (s : system) (e : event) : one_timer s -> one_timer (step s e).
Proof.
  intros Hs. destruct e as [m|t| | |ok| |uuid fs now name p|a p|]; simpl.
  - unfold mutate. destruct (userDB (db s)); [|exact Hs].
    apply one_timer_scheduleSync. exact Hs.
  - apply one_timer_advance, Hs.
  - unfold docs_read.
    destruct (take_task reading (running s)) as [[[h|] rest]|]; exact Hs.
  - unfold docs_fail. destruct (take_task reading (running s)) as [[t rest]|]; exact Hs.
  - unfold fetch_done. destruct (take_task fetching (running s)) as [[t rest]|]; exact Hs.
  - unfold fetch_fail. destruct (take_task fetching (running s)) as [[t rest]|]; exact Hs.
  - destruct (createAccount (db s) uuid fs now name p) as [[u d]|err] eqn:Hc; [|exact Hs].
    unfold createAccount in Hc.
    destruct (pouch_put_new _ _ _) as [acc|]; simpl in Hc; [|discriminate].
    inversion Hc; subst. exact Hs.
  - destruct (signIn (db s) a p) as [[acct d]|err] eqn:Hc; [|exact Hs].
    unfold signIn in Hc.
    destruct (pouch_get _ _) as [acct'|]; simpl in Hc; [|discriminate].
    destruct (negb _); [discriminate|]. inversion Hc; subst. exact Hs.
  - exact Hs.
Qed.

(** X14.  In every state the client reaches from the construction of the
    [Database] object, at most one sync timer is pending, and while one is
    pending [pendingSync] is set: edits never stack timers. *)
Theorem at_most_one_timer (events : list event) :
  (length (timers (run system_new events)) <= 1)%nat
  /\ (timers (run system_new events) <> [] ->
      pendingSync (db (run system_new events)) = true).
Proof.
  assert (forall s, one_timer s -> one_timer (run s events)) as Hrun.
  { induction events as [|e events IH]; intros s Hs; simpl; [exact Hs|].
    apply IH, one_timer_step, Hs. }
  apply Hrun. split; simpl; [lia|congruence].
Qed.

(** X15.  [signOut] does not cancel the pending timer.  When it fires
    after the sign-out, [syncToServer] returns at its guard, because
    [userDB] is null, and [pendingSync] stays set with no timer left.  From
    then on no sequence of events, signing in again and editing included,
    starts a sync or sends a request. *)
Theorem signOut_with_pending_timer (s : system) (due T : Z) (events : list event) :
  pendingSync (db s) = true -> timers s = [due] -> running s = [] -> due <= T ->
  starved (run s [SignOut; Advance T])
  /\ started (run s ([SignOut; Advance T] ++ events)) = started s
  /\ requests (run s ([SignOut; Advance T] ++ events)) = requests s.
Proof.
  intros Hp Ht Hr HT.
  assert (starved (run s [SignOut; Advance T])
          /\ started (run s [SignOut; Advance T]) = started s
          /\ requests (run s [SignOut; Advance T]) = requests s) as (Hst & Hs & Hq).
  { unfold run. simpl. unfold advance. simpl. rewrite Ht.
    rewrite (filter_cons_True (fun d => d <= T)), filter_nil by exact HT.
    rewrite (filter_cons_False (fun d => ~ d <= T)), filter_nil by tauto.
    simpl. unfold fire, syncToServer. simpl.
    destruct (isSyncing (db s)); simpl; repeat split; auto. }
  split; [exact Hst|].
  unfold run in *. rewrite foldl_app.
  destruct (starved_run events _ Hst) as (_ & Hq' & Hs').
  unfold run in *. rewrite Hs', Hq'. split; assumption.
Qed.

Lemma loaded_edit (h : string) (t0 t : Z) (m : mutation) (s0 s : system)
    (store : gmap string doc) :
  loaded h t0 s0 store s -> t < t0 + 2000 ->
  loaded h t0 s0 (apply_mutation m store) (mutate m (advance t s)).
Proof.
  intros (Ha & Hstore & Hc & Hq) Hlt.
  pose proof (advance_before_due h t0 t s0 s Ha Hlt) as Ha'.
  assert (stores (advance t s) = stores s /\ db (advance t s) = db s
          /\ requests (advance t s) = requests s) as (Hs1 & Hd1 & Hq1).
  { destruct Ha as (_ & Ht & _). unfold advance. rewrite Ht.
    rewrite (filter_cons_False (fun d => d <= t)), filter_nil by lia.
    simpl. auto. }
  split; [apply armed_edit; exact Ha'|].
  destruct Ha' as (Hp' & _ & _ & Hu' & _).
  unfold mutate. rewrite Hu'. rewrite scheduleSync_pending by exact Hp'.
  cbn [stores db requests]. rewrite lookup_insert_eq. cbn [default].
  rewrite Hs1, Hd1, Hq1, Hstore. auto.
Qed.

Lemma loaded_burst (h : string) (t0 : Z) (edits : list (Z * mutation))
    (s0 s : system) (store : gmap string doc) :
  loaded h t0 s0 store s -> Forall (fun tm => tm.1 < t0 + 2000) edits ->
  loaded h t0 s0 (foldl (fun st m => apply_mutation m st) store (map snd edits))
    (run s (burst_events edits)).
Proof.
  revert s store. induction edits as [|[t m] edits IH]; intros s store Hl Hall;
    simpl; [exact Hl|].
  inversion Hall as [|? ? Hlt Hall']; subst. simpl in Hlt.
  apply IH; [|exact Hall']. apply loaded_edit; assumption.
Qed.

(** X16.  A burst of edits is sent as one snapshot.  When an edit reaches
    an idle session and more edits follow within the 2 seconds, the one
    sync that starts reads the database after all of them: the single
    request it sends is built from the documents left by every edit of the
    burst, applied in order. *)
Theorem burst_sends_one_snapshot (s : system) (h : string) (m0 : mutation)
    (edits : list (Z * mutation)) (T : Z) :
  userDB (db s) = Some h -> isSyncing (db s) = false ->
  pendingSync (db s) = false -> timers s = [] -> running s = [] ->
  Forall (fun tm => tm.1 < clock s + 2000) edits ->
  clock s + 2000 <= T ->
  requests (run s (Mutate m0 :: burst_events edits ++ [Advance T; DocsRead]))
  = requests s
    ++ [build_batch (crypto (db s))
          (allDocs (foldl (fun st m => apply_mutation m st)
                      (default ∅ (stores s !! h)) (m0 :: map snd edits)))]
  /\ running (run s (Mutate m0 :: burst_events edits ++ [Advance T; DocsRead]))
     = [AwaitFetch].
Proof.
  intros Hu Hs Hp Ht Hr Hall HT.
  assert (loaded h (clock s) s (apply_mutation m0 (default ∅ (stores s !! h)))
            (mutate m0 s)) as Hl0.
  { split; [apply armed_first; assumption|].
    unfold mutate, scheduleSync. rewrite Hu. simpl. rewrite Hp. simpl.
    rewrite lookup_insert_eq. auto. }
  pose proof (loaded_burst h (clock s) edits s _ _ Hl0 Hall) as (Ha & Hstore & Hc & Hq).
  unfold run in *. simpl. rewrite foldl_app. simpl.
  set (s1 := foldl step (mutate m0 s) (burst_events edits)) in *.
  destruct Ha as (Hp1 & Ht1 & Hs1 & Hu1 & Hc1 & Hst1 & Hr1).
  unfold advance. rewrite Ht1.
  rewrite (filter_cons_True (fun d => d <= T)), filter_nil by lia.
  rewrite (filter_cons_False (fun d => ~ d <= T)), filter_nil by lia. simpl.
  unfold fire, syncToServer. simpl. rewrite Hs1, Hu1. simpl.
  unfold docs_read. simpl. rewrite Hr1, Hr. simpl.
  rewrite Hstore, Hc, Hq. auto.
Qed.

(** X17.  The batch that [syncToServer] builds holds a stored document
    exactly when its type is transaction, bill, goal, budget or reminder;
    a document of any other type is never sent.  The documents of type bill
    are the ones under [recurring_bills], and the batch never holds more
    documents than were read. *)
Theorem batch_holds_known_types (c : crypto_state) (rows : list doc) :
  (forall d, d ∈ batch_docs (build_batch c rows)
             <-> d ∈ rows /\ doc_type d ∈ synced_types)
  /\ (forall d, d ∈ recurring_bills (build_batch c rows)
                <-> d ∈ rows /\ doc_type d = "bill")
  /\ (length (batch_docs (build_batch c rows)) <= length rows)%nat
  /\ batch_accountId (build_batch c rows) = accountId c.
Proof.
  split; [|split; [|split]].
  - intros d. unfold batch_docs, build_batch, of_type, synced_types. simpl.
    rewrite !elem_of_app, !list_elem_of_filter, !elem_of_cons, elem_of_nil.
    tauto.
  - intros d. unfold build_batch, of_type. simpl.
    rewrite list_elem_of_filter. tauto.
  - unfold batch_docs, build_batch, of_type. simpl.
    induction rows as [|r rows IH]; simpl; [lia|].
    rewrite !filter_cons. rewrite !length_app in *.
    repeat case_decide; simpl; rewrite ?length_app; simpl;
      try lia; try congruence.
  - reflexivity.
Qed.

End Timers.

Lemma signOut_with_pending_timer_witness :
  @starved Double.subtle
    (@run Double.subtle Double.with_budget [SignOut; Advance 2000])
  /\ started (@run Double.subtle Double.with_budget
                ([SignOut; Advance 2000]
                 ++ [SignIn Double.alex_id "CorrectHorseBattery9!";
                     Mutate (PutDoc Double.expense_doc); Advance 100000])) = [].
Proof.
  destruct (@signOut_with_pending_timer Double.subtle Double.with_budget 2000 2000
              [SignIn Double.alex_id "CorrectHorseBattery9!";
               Mutate (PutDoc Double.expense_doc); Advance 100000]
              ltac:(vm_compute; reflexivity) ltac:(vm_compute; reflexivity)
              ltac:(vm_compute; reflexivity) ltac:(lia)) as (Hst & Hs & _).
  split; [exact Hst|]. exact Hs.
Defined.

Lemma burst_sends_one_snapshot_witness :
  map (fun b => (map doc_id (transactions b), map doc_id (budgets b)))
    (requests (@run Double.subtle Double.signed_in
                 (Mutate (PutDoc Double.budget_doc)
                    :: burst_events [(1500, PutDoc Double.expense_doc);
                                     (1900, RemoveDoc "budget_1")]
                    ++ [Advance 2000; DocsRead])))
  = [(["transaction_2"], [])].
Proof.
  rewrite (proj1 (@burst_sends_one_snapshot Double.subtle Double.signed_in
             (user_db_name Double.alex_id) (PutDoc Double.budget_doc)
             [(1500, PutDoc Double.expense_doc); (1900, RemoveDoc "budget_1")]
             2000
             ltac:(vm_compute; reflexivity) ltac:(vm_compute; reflexivity)
             ltac:(vm_compute; reflexivity) ltac:(vm_compute; reflexivity)
             ltac:(vm_compute; reflexivity)
             ltac:(repeat constructor) ltac:(vm_compute; discriminate))).
  vm_compute. reflexivity.
Defined.

(** ** The sync engine: a whole cycle *)

Section Cycle.
Context `{SubtleCrypto} `{JSONCodec}.

Lemma armed_burst_statuses (h : string) (t0 : Z) (edits : list (Z * mutation))
    (s0 s : system) :
  armed h t0 s0 s -> Forall (fun tm => tm.1 < t0 + 2000) edits ->
  statuses (run s (burst_events edits)) = statuses s.
Proof.
  revert s. induction edits as [|[t m] edits IH]; intros s Ha Hall; simpl;
    [reflexivity|].
  inversion Hall as [|? ? Hlt Hall']; subst. simpl in Hlt.
  pose proof (advance_before_due h t0 t s0 s Ha Hlt) as Ha'.
  rewrite (IH _ (armed_edit h t0 m s0 _ Ha') Hall').
  destruct Ha' as (Hp' & _ & _ & Hu' & _).
  unfold mutate. rewrite Hu', scheduleSync_pending by exact Hp'.
  cbn [statuses]. destruct Ha as (_ & Ht & _). unfold advance. rewrite Ht.
  rewrite (filter_cons_False (fun d => d <= t)), filter_nil by lia.
  reflexivity.
Qed.

(** X18.  A whole cycle brings the engine back to idle.  From an idle
    session, an edit, more edits within the 2 seconds, the timer, the read
    of the documents and the end of the request (a response, ok or not, or
    a network failure) leave no timer, no running sync and both flags down,
    so that the next edit schedules a sync again; the status reported is
    'syncing', then 'synced' for an ok response, 'error' for another
    response, 'offline' for a network failure. *)
Theorem sync_cycle_returns_to_idle (s : system) (h : string) (m0 : mutation)
    (edits : list (Z * mutation)) (T : Z) (e : event) (status : string) :
  userDB (db s) = Some h -> isSyncing (db s) = false ->
  pendingSync (db s) = false -> timers s = [] -> running s = [] ->
  Forall (fun tm => tm.1 < clock s + 2000) edits ->
  clock s + 2000 <= T ->
  outcome_status e = Some status ->
  let s' := run s (Mutate m0 :: burst_events edits ++ [Advance T; DocsRead; e]) in
  isSyncing (db s') = false /\ pendingSync (db s') = false
  /\ timers s' = [] /\ running s' = [] /\ userDB (db s') = Some h
  /\ statuses s' = statuses s ++ ["syncing"; status]
  /\ length (requests s') = S (length (requests s)).
Proof.
  intros Hu Hs Hp Ht Hr Hall HT He s'. subst s'.
  pose proof (armed_first h m0 s Hu Hs Hp Ht) as Ha0.
  pose proof (armed_burst h (clock s) edits s _ Ha0 Hall) as Ha.
  pose proof (armed_burst_statuses h (clock s) edits s _ Ha0 Hall) as Hst.
  assert (statuses (mutate m0 s) = statuses s) as Hst0.
  { unfold mutate, scheduleSync. rewrite Hu. simpl. rewrite Hp. reflexivity. }
  assert (length (requests (run (mutate m0 s) (burst_events edits)))
          = length (requests s)) as Hq.
  { assert (loaded h (clock s) s (apply_mutation m0 (default ∅ (stores s !! h)))
              (mutate m0 s)) as Hl0.
    { split; [exact Ha0|].
      unfold mutate, scheduleSync. rewrite Hu. simpl. rewrite Hp. simpl.
      rewrite lookup_insert_eq. auto. }
    destruct (loaded_burst h (clock s) edits s _ _ Hl0 Hall) as (_ & _ & _ & ->).
    reflexivity. }
  unfold run in *. simpl. rewrite foldl_app. simpl.
  set (s1 := foldl step (mutate m0 s) (burst_events edits)) in *.
  destruct Ha as (Hp1 & Ht1 & Hs1 & Hu1 & Hc1 & Hst1 & Hr1).
  assert (running s1 = []) as Hr1' by (rewrite Hr1; exact Hr).
  unfold advance. rewrite Ht1.
  rewrite (filter_cons_True (fun d => d <= T)), filter_nil by lia.
  rewrite (filter_cons_False (fun d => ~ d <= T)), filter_nil by lia. simpl.
  unfold fire, syncToServer. simpl. rewrite Hs1, Hu1. simpl.
  unfold docs_read. simpl. rewrite Hr1'. simpl.
  destruct e as [m|t| | |[|]| |uuid fs now name p|a p|]; simpl in He;
    try discriminate He; inversion He; subst status;
    cbn; rewrite Hu1, Hst, Hst0, length_app, Hq; simpl;
    rewrite <- app_assoc; repeat split; try reflexivity; lia.
Qed.

End Cycle.

Lemma sync_cycle_returns_to_idle_witness :
  statuses (@run Double.subtle Double.signed_in
              (Mutate (PutDoc Double.budget_doc)
                 :: burst_events [(1500, PutDoc Double.expense_doc)]
                 ++ [Advance 2000; DocsRead; FetchDone false]))
  = ["syncing"; "error"].
Proof.
  apply (@sync_cycle_returns_to_idle Double.subtle Double.signed_in
           (user_db_name Double.alex_id) (PutDoc Double.budget_doc)
           [(1500, PutDoc Double.expense_doc)] 2000 (FetchDone false) "error"
           ltac:(vm_compute; reflexivity) ltac:(vm_compute; reflexivity)
           ltac:(vm_compute; reflexivity) ltac:(vm_compute; reflexivity)
           ltac:(vm_compute; reflexivity)
           ltac:(repeat constructor) ltac:(vm_compute; discriminate) eq_refl).
Defined.

(** ** The server: what a sync stores, and the two data routes *)

Section Stored.
Context `{JSONCodec} `{NodeRuntime}.

Lemma check_arrays_passes (entries : list (string * option json)) :
  check_arrays entries = None ->
  forall k v, (k, v) ∈ entries -> v = None \/ exists l, v = Some (JArr l).
Proof.
  induction entries as [|[k0 v0] entries IH]; intros Hc k v Hin.
  - inversion Hin.
  - simpl in Hc.
    destruct (bool_decide (v0 <> None) && negb (isArray v0)) eqn:Hb; [discriminate|].
    apply elem_of_cons in Hin as [Heq|Hin]; [|eapply IH; eauto].
    inversion Heq; subst.
    destruct v0 as [[| | | |l|]|]; eauto;
      rewrite bool_decide_eq_true_2 in Hb by discriminate; discriminate.
Qed.

Lemma validated (body : json) :
  validateSyncData body = None ->
  (exists a, get_field "accountId" body = Some (JStr a) /\ a <> EmptyString)
  /\ forall k, k ∈ array_fields ->
       get_field k body = None \/ exists l, get_field k body = Some (JArr l).
Proof.
  unfold validateSyncData.
  destruct (negb (truthy (get_field "accountId" body))
            || negb (is_string (get_field "accountId" body))) eqn:Hacc; [discriminate|].
  apply orb_false_elim in Hacc as [Ht Hs]. apply negb_false_iff in Ht, Hs.
  intros Hc. split.
  - destruct (get_field "accountId" body) as [[| | |a| |]|]; try discriminate.
    exists a. split; [reflexivity|]. intros ->. discriminate.
  - intros k Hk. apply (check_arrays_passes _ Hc k).
    unfold array_fields in Hk.
    repeat (apply elem_of_cons in Hk as [->|Hk]; [set_solver|]). inversion Hk.
Qed.

Lemma bundle_of_other (fs : gmap string string) (now : string) (body : json)
    (k : string) :
  k <> "syncCount" ->
  assoc k (bundle_of fs now body) = assoc k (fresh_bundle now body).
Proof.
  intros Hk. unfold bundle_of, with_syncCount.
  destruct (fs !! dataFile_of body) as [content|]; [|reflexivity].
  destruct (JSON_parse content) as [[| | | | |]|]; try reflexivity;
    rewrite assoc_obj_set; apply String.eqb_neq in Hk; rewrite Hk; reflexivity.
Qed.

(** X19.  A bundle that the sync route stores always has arrays under
    [transactions], [recurring_bills], [goals], [budgets] and [reminders]:
    the array of the request where it has one, the empty array where it has
    none.  Its [lastSync] is the time of the request, and its file is the
    one named after the account id of the request. *)
Theorem stored_bundle_has_arrays (fs : gmap string string) (now : string)
    (body : json) :
  validateSyncData body = None ->
  (exists a, get_field "accountId" body = Some (JStr a) /\ a <> EmptyString
             /\ dataFile_of body = accountFile a)
  /\ (forall k, k ∈ array_fields ->
        exists l, assoc k (bundle_of fs now body) = Some (JArr l)
                  /\ default (JArr []) (get_field k body) = JArr l)
  /\ assoc "lastSync" (bundle_of fs now body) = Some (JStr now).
Proof.
  intros Hvalid. destruct (validated body Hvalid) as ((a & Ha & Hne) & Harr).
  split; [|split].
  - exists a. split; [exact Ha|]. split; [exact Hne|].
    unfold dataFile_of, accountFile. rewrite Ha. reflexivity.
  - intros k Hk. specialize (Harr k Hk).
    assert (k <> "syncCount") as Hsc.
    { unfold array_fields in Hk. intros ->.
      repeat (apply elem_of_cons in Hk as [Heq|Hk]; [discriminate Heq|]).
      inversion Hk. }
    rewrite bundle_of_other by exact Hsc.
    unfold array_fields in Hk. unfold fresh_bundle.
    repeat (apply elem_of_cons in Hk as [->|Hk];
            [destruct Harr as [Hn|(l & Hl)]; rewrite ?Hn, ?Hl;
             eexists; split; reflexivity|]).
    inversion Hk.
  - rewrite bundle_of_other by discriminate. reflexivity.
Qed.

(** X20.  A sync replaces the bundle of the account as a whole: whatever
    was stored before, every field of the new bundle other than [syncCount]
    comes from the request alone.  Sending the same body again stores the
    same fields again. *)
Theorem sync_is_full_replace (fs1 fs2 : gmap string string) (now : string)
    (body : json) (k : string) :
  k <> "syncCount" ->
  assoc k (bundle_of fs1 now body) = assoc k (bundle_of fs2 now body).
Proof. intros Hk. rewrite !bundle_of_other by exact Hk. reflexivity. Qed.

(** X21.  A request to the sync route changes at most two files: the
    bundle of the account it names and the temporary file next to it.  The
    bundle of every other account is as it was. *)
Theorem sync_touches_one_account (fs : gmap string string) (now : string)
    (body : json) (other : string) :
  other <> dataFile_of body -> other <> dataFile_of body +:+ ".tmp" ->
  (post_api_sync fs now body).2 !! other = fs !! other.
Proof.
  intros Hd Ht. unfold post_api_sync.
  destruct (validateSyncData body); [reflexivity|].
  apply sync_handler_other; assumption.
Qed.

Lemma spread_bundle (fs : gmap string string) (now : string) (body : json) :
  spread_into [] (JObj (bundle_of fs now body)) = bundle_of fs now body.
Proof.
  unfold bundle_of, with_syncCount.
  destruct (fs !! dataFile_of body) as [content|]; [|reflexivity].
  destruct (JSON_parse content) as [[| | | | |]|]; reflexivity.
Qed.

(** X22.  What a sync stores is what the next read returns.  After a
    request that passed validation and was answered 200, so that its
    writes went through, provided [JSON.parse] gives the stored bundle back
    from its text, [GET /api/data/:accountId] for the same account answers
    200 with the fields of that bundle, the five arrays of the request
    among them, and with [lastSync] set to the time of the read. *)
Theorem sync_then_get (fs : gmap string string) (now now' : string)
    (body : json) (a : string) :
  validateSyncData body = None ->
  get_field "accountId" body = Some (JStr a) ->
  res_status (post_api_sync fs now body).1 = 200 ->
  JSON_parse (JSON_stringify_indent (JObj (bundle_of fs now body)))
  = Some (JObj (bundle_of fs now body)) ->
  res_status (get_data_handler (post_api_sync fs now body).2 now' a) = 200
  /\ (forall k, k <> "lastSync" ->
        get_field k (res_body (get_data_handler (post_api_sync fs now body).2 now' a))
        = assoc k (bundle_of fs now body))
  /\ (forall k, k ∈ array_fields ->
        get_field k (res_body (get_data_handler (post_api_sync fs now body).2 now' a))
        = Some (default (JArr []) (get_field k body)))
  /\ get_field "lastSync"
       (res_body (get_data_handler (post_api_sync fs now body).2 now' a))
     = Some (JStr now').
Proof.
  intros Hvalid Ha Hsynced Hparse.
  destruct (stored_bundle_has_arrays fs now body Hvalid)
    as ((a' & Ha' & Hne & Hfile) & Harr & _).
  rewrite Ha in Ha'. inversion Ha'; subst a'.
  assert ((post_api_sync fs now body).2
          = <[dataFile_of body := JSON_stringify_indent (JObj (bundle_of fs now body))]>
              (delete (dataFile_of body +:+ ".tmp") fs)) as Hstored.
  { unfold post_api_sync in *. rewrite Hvalid in *.
    apply sync_handler_status in Hsynced as [Hw Hr].
    rewrite (sync_handler_ok _ _ _ Hw Hr). reflexivity. }
  assert (get_data_handler (post_api_sync fs now body).2 now' a
          = res_json (JObj (obj_set "lastSync" (JStr now') (bundle_of fs now body))))
    as Hget.
  { unfold get_data_handler. rewrite Hstored.
    assert (truthy (Some (JStr a)) = true) as ->.
    { simpl. destruct (String.eqb_spec a EmptyString); [congruence|reflexivity]. }
    simpl negb. cbv iota.
    rewrite <- Hfile, lookup_insert_eq, Hparse, spread_bundle.
    reflexivity. }
  rewrite Hget. simpl. split; [reflexivity|]. split; [|split].
  - intros k Hk. rewrite assoc_obj_set.
    apply String.eqb_neq in Hk. rewrite Hk. reflexivity.
  - intros k Hk. destruct (Harr k Hk) as (l & Hl & Hdef).
    rewrite assoc_obj_set.
    assert (String.eqb k "lastSync" = false) as ->.
    { apply String.eqb_neq. intros ->. unfold array_fields in Hk.
      repeat (apply elem_of_cons in Hk as [Heq|Hk]; [discriminate Heq|]).
      inversion Hk. }
    rewrite Hl, Hdef. reflexivity.
  - rewrite assoc_obj_set. reflexivity.
Qed.

(** X23.  [DELETE /api/data/:accountId] removes nothing without the
    confirmation string: if it changes the file system at all, the body
    held [confirmDelete] equal to DELETE_ALL_DATA, and the only file it
    removes is the bundle of the account it names.  Without the string it
    answers 400. *)
Theorem delete_needs_confirmation (fs : gmap string string) (now a : string)
    (body : json) :
  ((delete_data_handler fs now a body).2 <> fs ->
     get_field "confirmDelete" body = Some (JStr "DELETE_ALL_DATA")
     /\ a <> EmptyString)
  /\ (get_field "confirmDelete" body <> Some (JStr "DELETE_ALL_DATA") ->
      res_status (delete_data_handler fs now a body).1 = 400)
  /\ (forall other, other <> accountFile a ->
        (delete_data_handler fs now a body).2 !! other = fs !! other).
Proof.
  unfold delete_data_handler.
  destruct (String.eqb_spec a EmptyString) as [->|Hne]; simpl.
  - split; [congruence|]. split; reflexivity.
  - assert (negb (negb (String.eqb a EmptyString)) = false) as ->.
    { apply String.eqb_neq in Hne. rewrite Hne. reflexivity. }
    unfold is_the_string.
    destruct (get_field "confirmDelete" body) as [[| | |c| |]|]; simpl;
      try (split; [congruence|]; split; reflexivity).
    destruct (String.eqb_spec c "DELETE_ALL_DATA") as [->|Hc]; simpl.
    + split; [auto|]. split; [congruence|].
      intros other Ho. destruct (fs !! accountFile a); [|reflexivity].
      apply lookup_delete_ne. congruence.
    + split; [congruence|]. split; reflexivity.
Qed.


End Stored.

Lemma stored_bundle_has_arrays_witness :
  assoc "goals" (@bundle_of Double.codec Double.node ∅ "2024-01-03T00:00:00.000Z"
                   Double.alex_body) = Some (JArr [])
  /\ exists l, assoc "transactions"
                 (@bundle_of Double.codec Double.node ∅ "2024-01-03T00:00:00.000Z"
                    Double.alex_body) = Some (JArr l)
               /\ default (JArr []) (get_field "transactions" Double.alex_body)
                  = JArr l.
Proof.
  split; [vm_compute; reflexivity|].
  apply (proj1 (proj2 (@stored_bundle_has_arrays Double.codec Double.node ∅
                         "2024-01-03T00:00:00.000Z" Double.alex_body eq_refl))).
  unfold array_fields. left.
Defined.

Lemma sync_is_full_replace_witness :
  assoc "transactions"
    (@bundle_of Double.codec Double.node (Double.sync_n 2).2
       "2024-01-03T00:00:00.000Z" Double.alex_body)
  = assoc "transactions"
      (@bundle_of Double.codec Double.node ∅ "2024-01-03T00:00:00.000Z"
         Double.alex_body).
Proof.
  apply (@sync_is_full_replace Double.codec Double.node). discriminate.
Defined.

Lemma sync_touches_one_account_witness :
  (@post_api_sync Double.codec Double.node {[ "secure-data/eve.json" := "{}" ]}
     "2024-01-03T00:00:00.000Z" Double.alex_body).2 !! "secure-data/eve.json"
  = Some "{}".
Proof.
  rewrite (@sync_touches_one_account Double.codec Double.node).
  - reflexivity.
  - vm_compute. discriminate.
  - vm_compute. discriminate.
Defined.

Lemma sync_then_get_witness :
  get_field "transactions"
    (res_body (@get_data_handler Double.codec Double.node
                 (@post_api_sync Double.codec Double.node ∅
                    "2024-01-03T00:00:00.000Z" Double.alex_body).2
                 "2024-01-09T00:00:00.000Z" "alex"))
  = Some (JArr [JObj [("_id", JStr "transaction_2")]])
  /\ get_field "lastSync"
       (res_body (@get_data_handler Double.codec Double.node
                    (@post_api_sync Double.codec Double.node ∅
                       "2024-01-03T00:00:00.000Z" Double.alex_body).2
                    "2024-01-09T00:00:00.000Z" "alex"))
     = Some (JStr "2024-01-09T00:00:00.000Z").
Proof.
  assert (@JSON_parse Double.codec
            (@JSON_stringify_indent Double.node
               (JObj (@bundle_of Double.codec Double.node ∅
                        "2024-01-03T00:00:00.000Z" Double.alex_body)))
          = Some (JObj (@bundle_of Double.codec Double.node ∅
                          "2024-01-03T00:00:00.000Z" Double.alex_body))) as Hparse
    by (vm_compute; reflexivity).
  assert (res_status (@post_api_sync Double.codec Double.node ∅
                        "2024-01-03T00:00:00.000Z" Double.alex_body).1 = 200)
    as Hsynced by (vm_compute; reflexivity).
  destruct (@sync_then_get Double.codec Double.node ∅ "2024-01-03T00:00:00.000Z"
              "2024-01-09T00:00:00.000Z" Double.alex_body "alex"
              eq_refl eq_refl Hsynced Hparse)
    as (_ & _ & Harr & Hlast).
  split.
  - rewrite (Harr "transactions" ltac:(unfold array_fields; left)). reflexivity.
  - exact Hlast.
Defined.

Lemma delete_needs_confirmation_witness :
  res_status (@delete_data_handler Double.node (Double.sync_n 1).2
                "2024-01-09T00:00:00.000Z" "alex"
                (JObj [("confirmDelete", JStr "yes")])).1 = 400.
Proof.
  apply (@delete_needs_confirmation Double.node). discriminate.
Defined.

